(** * count_lines.py: per-file and per-directory line counts

    A shallow embedding of [src/count_lines.py] and of the library calls it
    relies on (pathlib's pure paths on POSIX, text-mode file iteration,
    [defaultdict(int)], the stable [sort]/[sorted], and [print]), followed by
    the properties the specification states about the program. *)

From Stdlib Require Import ZArith String Ascii List Permutation Sorted Lia Bool.
From Stdlib Require Import DecimalString DecimalPos DecimalZ.
From stdpp Require Import base option list strings gmap fin_maps.

Local Open Scope string_scope.
Local Open Scope Z_scope.

(** ** Python [str] operations used by pathlib and by the script *)

Module PyStr.

(** [len(s)] *)
Definition len (s : string) : Z := Z.of_nat (String.length s).

(** [s[i:]] for [0 <= i] *)
Fixpoint drop (n : nat) (s : string) : string :=
  match n, s with
  | O, _ => s
  | S _, EmptyString => EmptyString
  | S n', String _ r => drop n' r
  end.

(** [s[:1] == c] *)
Definition head_is (c : ascii) (s : string) : bool :=
  match s with
  | String a _ => Ascii.eqb a c
  | EmptyString => false
  end.

(** The scan behind [s.rfind(c)]: [i] is the index of the head of [s],
    [last] the index of the latest occurrence met so far. *)
Fixpoint rfind_from (c : ascii) (s : string) (i last : Z) : Z :=
  match s with
  | EmptyString => last
  | String a r => rfind_from c r (i + 1) (if Ascii.eqb a c then i else last)
  end.

(** [s.rfind(c)]: index of the last occurrence of [c], or [-1]. *)
Definition rfind (c : ascii) (s : string) : Z := rfind_from c s 0 (-1).

(** [c in s] for a one-character [c] *)
Fixpoint contains (c : ascii) (s : string) : bool :=
  match s with
  | EmptyString => false
  | String a r => Ascii.eqb a c || contains c r
  end.

(** [s.split(sep)] for a one-character separator: never the empty list. *)
Fixpoint split (sep : ascii) (s : string) : list string :=
  match s with
  | EmptyString => [EmptyString]
  | String a r =>
      if Ascii.eqb a sep then EmptyString :: split sep r
      else match split sep r with
           | h :: t => String a h :: t
           | [] => [String a EmptyString]
           end
  end.

(** [sep.join(l)] *)
Fixpoint join (sep : string) (l : list string) : string :=
  match l with
  | [] => EmptyString
  | [x] => x
  | x :: r => x ++ sep ++ join sep r
  end.

(** [c * n] *)
Fixpoint repeat (c : string) (n : nat) : string :=
  match n with
  | O => EmptyString
  | S n' => c ++ repeat c n'
  end.

(** [str(z)] for an [int] *)
Definition of_int (z : Z) : string := NilZero.string_of_int (Z.to_int z).

(** [format(s, ">w")]: right-aligned in a field of [w] characters, padded
    with spaces, never truncated. *)
Definition rjust (w : nat) (s : string) : string :=
  repeat " " (w - String.length s) ++ s.

End PyStr.

(** ** pathlib's pure POSIX paths

    A path is its root ([""] when relative, ["/"] or ["//"]) and the list of
    its components. *)

Module PurePath.

Record t := mk { root : string; tail : list string }.

(** [posixpath.splitroot], without the drive POSIX does not have: one
    leading slash is a root, and so are exactly two.
    [if p[:1] != sep: '', p / elif p[1:2] != sep or p[2:3] == sep: sep, p[1:] /
    else: p[:2], p[2:]] *)
Definition splitroot (p : string) : string * string :=
  if negb (PyStr.head_is "/" p) then ("", p)
  else if negb (PyStr.head_is "/" (PyStr.drop 1 p)) || PyStr.head_is "/" (PyStr.drop 2 p)
       then ("/", PyStr.drop 1 p)
       else ("//", PyStr.drop 2 p).

(** A component survives parsing when it is neither empty nor ["."]. *)
Definition keeps (x : string) : bool :=
  negb (String.eqb x "") && negb (String.eqb x ".").

(** [Path(s)] for one string argument. *)
Definition parse (s : string) : t :=
  let '(rt, rel) := splitroot s in
  mk rt (List.filter keeps (PyStr.split "/" rel)).

(** [path.parts] *)
Definition parts (p : t) : list string :=
  if String.eqb (root p) "" then tail p else root p :: tail p.

(** [path.name]: the final component, [""] when there is none. *)
Definition name (p : t) : string := List.last (tail p) "".

(** [path.suffix]: the final component's last suffix, with its period. *)
Definition suffix (p : t) : string :=
  let name := name p in
  let i := PyStr.rfind "." name in
  if (0 <? i) && (i <? PyStr.len name - 1)
  then PyStr.drop (Z.to_nat i) name
  else "".

(** [path.parent]: a path without components is its own parent. *)
Definition parent (p : t) : t :=
  match tail p with
  | [] => p
  | _ :: _ => mk (root p) (List.removelast (tail p))
  end.

(** [str(path)] *)
Definition str (p : t) : string :=
  let s := root p ++ PyStr.join "/" (tail p) in
  if String.eqb s "" then "." else s.

End PurePath.

(** ** Exceptions

    A Python call either returns or raises; [try_except] is
    [try: body / except: handler] with a bare [except], which catches
    everything. *)

Inductive exn :=
| PermissionError
| FileNotFoundError
| IsADirectoryError
| OSError (errno : Z)
| KeyboardInterrupt
| RecursionError
| UnicodeEncodeError
| BrokenPipeError.

Inductive result (A : Type) :=
| Ok (a : A)
| Raise (e : exn).
Arguments Ok {A} a.
Arguments Raise {A} e.

Definition bind {A B} (m : result A) (k : A -> result B) : result B :=
  match m with
  | Ok a => k a
  | Raise e => Raise e
  end.

Notation "'let*' x ':=' m 'in' k" := (bind m (fun x => k))
  (at level 10, x name, m at level 200, k at level 200).

Definition try_except {A} (body : result A) (handler : exn -> result A) : result A :=
  match body with
  | Ok a => Ok a
  | Raise e => handler e
  end.

(** [for x in l: acc = step(acc, x)] where the step may raise. *)
Fixpoint for_each {A S} (step : S -> A -> result S) (l : list A) (acc : S) : result S :=
  match l with
  | [] => Ok acc
  | x :: r => let* acc' := step acc x in for_each step r acc'
  end.

(** ** Files opened in text mode

    What [open(path, 'r', encoding='utf-8', errors='ignore')] and the
    iteration over the handle do for one file: the open raises, or the handle
    delivers the decoded text in successive reads, any of which may raise.
    With [errors='ignore'] decoding itself never raises, so the text is what
    is left after the undecodable bytes were dropped. *)

Inductive file_node :=
| Unopenable (e : exn)
| Opened (reads : list (result string)).

Definition LF : ascii := ascii_of_nat 10.
Definition CR : ascii := ascii_of_nat 13.
Definition nl : string := String LF EmptyString.

Definition open_ (f : file_node) : result (list (result string)) :=
  match f with
  | Unopenable e => Raise e
  | Opened reads => Ok reads
  end.

(** Reading the handle to its end. *)
Fixpoint read_all (reads : list (result string)) : result string :=
  match reads with
  | [] => Ok EmptyString
  | r :: rs => let* s := r in let* t := read_all rs in Ok (s ++ t)
  end.

(** The lines that iterating a text-mode handle yields ([newline=None]):
    a line ends at ["\n"], ["\r"] or ["\r\n"], which reads as ["\n"]; what
    follows the last terminator is a line of its own unless it is empty. *)
Fixpoint iter_lines (s : string) : list string :=
  match s with
  | EmptyString => []
  | String c r =>
      if Ascii.eqb c LF then nl :: iter_lines r
      else if Ascii.eqb c CR then
        match r with
        | String c' r' => if Ascii.eqb c' LF then nl :: iter_lines r' else nl :: iter_lines r
        | EmptyString => [nl]
        end
      else match iter_lines r with
           | [] => [String c EmptyString]
           | l :: ls => String c l :: ls
           end
  end.

(** [sum(1 for _ in f)] *)
Definition sum_ones {A} (l : list A) : Z := fold_left (fun acc _ => acc + 1) l 0.

(** The body of the [try] of [count_lines]. *)
Definition count_lines_body (f : file_node) : result Z :=
  let* reads := open_ f in
  let* text := read_all reads in
  Ok (sum_ones (iter_lines text)).

(** [count_lines(file_path)], for the file the path names. *)
Definition count_lines (f : file_node) : result Z :=
  try_except (count_lines_body f) (fun _ => Ok 0).

(** ** The walk and the filter *)

(** 代码文件扩展名 *)
Definition EXTENSIONS : list string :=
  [".svelte"; ".ts"; ".rs"; ".js"; ".css"; ".html"; ".json"].

(** 忽略目录 *)
Definition IGNORE_DIRS : list string :=
  ["node_modules"; "target"; "dist"; ".svelte-kit"; ".git"; "build"].

(** [x in l] on strings *)
Definition str_in (x : string) (l : list string) : bool := existsb (String.eqb x) l.

(** One entry yielded by [root.rglob('*')]: its path relative to the root,
    what [path.is_file()] does and what opening it for reading does.
    [is_file()] answers [True] for a regular file and [False] for anything
    else, a path that is gone included; it raises the [OSError] of a [stat]
    that fails otherwise, [PermissionError] for a path under a directory
    that may not be searched. *)
Record entry := {
  path : PurePath.t;
  is_file : result bool;
  node : file_node
}.

(** A record of [files]: [(str(path), lines)]. *)
Definition file_record : Type := string * Z.

(** The body of the [for path in root.rglob('*')] loop. *)
Definition visit (files : list file_record) (e : entry) : result (list file_record) :=
  let* regular := is_file e in
  if regular && str_in (PurePath.suffix (path e)) EXTENSIONS then
    if existsb (fun d => str_in d (PurePath.parts (path e))) IGNORE_DIRS then
      Ok files
    else
      let* lines := count_lines (node e) in
      Ok (files ++ [(PurePath.str (path e), lines)])%list
  else Ok files.

(** The loop over the entries that are yielded, from [files = []]. *)
Definition scan (walk : list entry) : result (list file_record) :=
  for_each visit walk [].

(** What the loop draws from [root.rglob('*')]: the entries the generator
    yields, after which it is exhausted or raises. *)
Record walk := {
  yielded : list entry;
  ending : option exn
}.

(** The [for path in root.rglob('*')] loop as a whole. *)
Definition scan_walk (w : walk) : result (list file_record) :=
  let* files := scan (yielded w) in
  match ending w with
  | None => Ok files
  | Some x => Raise x
  end.

(** ** Sorting

    [list.sort] and [sorted] are stable and order by the key, ascending. The
    result of a stable sort is determined by its input, so insertion from the
    right, which puts an item before the run of items with an equal key that
    followed it, computes the same list. *)

Fixpoint insert_by_key {A} (key : A -> Z) (x : A) (l : list A) : list A :=
  match l with
  | [] => [x]
  | y :: r => if key x <=? key y then x :: y :: r else y :: insert_by_key key x r
  end.

Fixpoint sort_by_key {A} (key : A -> Z) (l : list A) : list A :=
  match l with
  | [] => []
  | x :: r => insert_by_key key x (sort_by_key key r)
  end.

(** ** [defaultdict(int)]

    A dict keeps its keys in the order of their first insertion, which is the
    order [items()] iterates in. *)

Module DefaultDict.

Definition t : Type := list (string * Z).

Definition empty : t := [].

(** [dict.get(k)] *)
Fixpoint get (d : t) (k : string) : option Z :=
  match d with
  | [] => None
  | (k', v) :: r => if String.eqb k' k then Some v else get r k
  end.

(** [d[k] = v]: in place for a key already there, at the end for a new one. *)
Fixpoint setitem (d : t) (k : string) (v : Z) : t :=
  match d with
  | [] => [(k, v)]
  | (k', v') :: r => if String.eqb k' k then (k', v) :: r else (k', v') :: setitem r k v
  end.

(** [d[k]]: a missing key is first inserted with [int()], that is [0]. *)
Definition getitem (d : t) (k : string) : Z * t :=
  match get d k with
  | Some v => (v, d)
  | None => (0, setitem d k 0)
  end.

(** [d[k] += n] *)
Definition iadd (d : t) (k : string) (n : Z) : t :=
  let '(v, d') := getitem d k in setitem d' k (v + n).

Definition items (d : t) : list (string * Z) := d.
Definition keys (d : t) : list string := map fst d.
Definition values (d : t) : list Z := map snd d.

End DefaultDict.

(** [sum(l)] for a list of [int] *)
Definition py_sum (l : list Z) : Z := fold_left Z.add l 0.

(** ** [main] *)

(** [files.sort(key=lambda x: -x[1])] *)
Definition sort_files (files : list file_record) : list file_record :=
  sort_by_key (fun x => - snd x) files.

(** [str(Path(path).parent)] *)
Definition dir_name (path : string) : string :=
  PurePath.str (PurePath.parent (PurePath.parse path)).

(** The body of the [for path, lines in files] loop:
    [dir_name = str(Path(path).parent); dir_totals[dir_name] += lines]. *)
Definition add_record (d : DefaultDict.t) (r : file_record) : DefaultDict.t :=
  let '(path, lines) := r in DefaultDict.iadd d (dir_name path) lines.

(** The loop, from [dir_totals = defaultdict(int)]. *)
Definition build_dir_totals (files : list file_record) : DefaultDict.t :=
  fold_left add_record files DefaultDict.empty.

(** [sorted(dir_totals.items(), key=lambda x: -x[1])] *)
Definition sort_dirs (d : DefaultDict.t) : list (string * Z) :=
  sort_by_key (fun x => - snd x) (DefaultDict.items d).

(** [sum(l for _, l in files)] *)
Definition grand_total (files : list file_record) : Z := py_sum (map snd files).

(** ["=" * 60] and ["\n" + "=" * 60] *)
Definition banner : string := PyStr.repeat "=" 60.
Definition spaced_banner : string := nl ++ banner.

(** [f"{lines:>6} 行  {path}"] *)
Definition file_row (r : file_record) : string :=
  PyStr.rjust 6 (PyStr.of_int (snd r)) ++ " 行  " ++ fst r.

(** [f"{total:>6} 行  {dir_name}/"] *)
Definition dir_row (r : string * Z) : string :=
  PyStr.rjust 6 (PyStr.of_int (snd r)) ++ " 行  " ++ fst r ++ "/".

(** [f"\n总计: {...} 行"] *)
Definition total_row (n : Z) : string :=
  nl ++ "总计: " ++ PyStr.of_int n ++ " 行".

(** What the program holds once the loops are done. *)
Record report := {
  files : list file_record;
  dir_totals : DefaultDict.t
}.

Definition make_report (scanned : list file_record) : report :=
  let files := sort_files scanned in
  {| files := files; dir_totals := build_dir_totals files |}.

(** The arguments of the successive [print] calls. *)
Definition print_report (r : report) : list string :=
  ([banner; "文件行数统计（降序）"; banner]
   ++ map file_row (files r)
   ++ [spaced_banner; "目录汇总（降序）"; banner]
   ++ map dir_row (sort_dirs (dir_totals r))
   ++ [total_row (grand_total (files r))])%list.

(** What [print] does with one argument on the standard output at hand,
    given what was printed before: [None] when the text is written, or what
    is raised, [UnicodeEncodeError] when the encoding of the stream lacks a
    character of the text. *)
Definition stdout : Type := list string -> string -> option exn.

(** A run of the program: what it printed, and whether it returned or what
    it raised. *)
Record run := {
  printed : list string;
  outcome : result unit
}.

(** The [print] calls in order, up to the first that raises. *)
Fixpoint print_all (out : stdout) (args done : list string) : run :=
  match args with
  | [] => {| printed := done; outcome := Ok tt |}
  | s :: r =>
      match out done s with
      | None => print_all out r (done ++ [s])%list
      | Some x => {| printed := done; outcome := Raise x |}
      end
  end.

(** [main()]: nothing is printed before the loops are done. *)
Definition main (out : stdout) (w : walk) : run :=
  match scan_walk w with
  | Ok scanned => print_all out (print_report (make_report scanned)) []
  | Raise x => {| printed := []; outcome := Raise x |}
  end.

(** ** Sample trees *)

(** A standard output that takes every text, and a walk that ends well. *)
Definition accepting : stdout := fun _ _ => None.

Definition exhausted (entries : list entry) : walk :=
  {| yielded := entries; ending := None |}.

(** A readable file of [n] terminated lines. *)
Definition text_of_lines (n : nat) : file_node :=
  Opened [Ok (PyStr.repeat ("x" ++ nl) n)].

Definition a_ts : entry :=
  {| path := PurePath.mk "" ["a.ts"]; is_file := Ok true; node := text_of_lines 10 |}.

Definition readme_md : entry :=
  {| path := PurePath.mk "" ["README.md"]; is_file := Ok true; node := text_of_lines 3 |}.

(** A file that is gone by the time it is opened. *)
Definition vanished_ts : entry :=
  {| path := PurePath.mk "" ["src"; "gone.ts"]; is_file := Ok true;
     node := Unopenable FileNotFoundError |}.

(** A file whose name begins like an excluded directory. *)
Definition build_ts : entry :=
  {| path := PurePath.mk "" ["src"; "build.ts"]; is_file := Ok true; node := text_of_lines 2 |}.

(** A file under a directory that may not be searched. *)
Definition locked_ts : entry :=
  {| path := PurePath.mk "" ["vault"; "key.ts"]; is_file := Raise PermissionError;
     node := Unopenable PermissionError |}.

(** The scenario of the specification, in some walk order: [a.ts] (10
    lines), [b.js] (5), [README.md] (3) and [node_modules/c.js] (100). *)
Definition scenario : list entry :=
  [ {| path := PurePath.mk "" ["b.js"]; is_file := Ok true; node := text_of_lines 5 |};
    {| path := PurePath.mk "" ["node_modules"]; is_file := Ok false;
       node := Unopenable IsADirectoryError |};
    readme_md;
    a_ts;
    {| path := PurePath.mk "" ["node_modules"; "c.js"]; is_file := Ok true;
       node := text_of_lines 100 |} ].

(** ** The specification's notions, for the statements below *)

(** A qualifying file: a regular file, as [is_file()] answers, whose
    extension is in the allow-set and none of whose path components is in
    the exclude-set. *)
Definition qualifying (e : entry) : Prop :=
  is_file e = Ok true /\
  PurePath.suffix (path e) ∈ EXTENSIONS /\
  forall c, c ∈ PurePath.parts (path e) -> c ∉ IGNORE_DIRS.

(** The test under which the loop appends a record. *)
Definition selected (e : entry) : bool :=
  match is_file e with
  | Ok regular =>
      regular && str_in (PurePath.suffix (path e)) EXTENSIONS
      && negb (existsb (fun d => str_in d (PurePath.parts (path e))) IGNORE_DIRS)
  | Raise _ => false
  end.

(** [is_file()] returns for the entry. *)
Definition answers (e : entry) : Prop := exists regular, is_file e = Ok regular.

(** The count [count_lines] hands back for a file, and the record made of it. *)
Definition counted (f : file_node) : Z :=
  match count_lines f with
  | Ok n => n
  | Raise _ => 0
  end.

Definition record_of (e : entry) : file_record :=
  (PurePath.str (path e), counted (node e)).

(** The text of a file that opens and reads without failure. *)
Definition read_text (f : file_node) : result string :=
  let* reads := open_ f in read_all reads.

(** Whether a line terminator ends at the character [c], which [r] follows:
    ["\n"] always ends one, ["\r"] does unless a ["\n"] follows it, the two
    being one terminator that ends at the ["\n"]. *)
Definition ends_terminator (c : ascii) (r : string) : bool :=
  Ascii.eqb c LF || (Ascii.eqb c CR && negb (PyStr.head_is LF r)).

(** The number of segments of a text that end in a line terminator: one for
    each terminator. *)
Fixpoint terminated_segments (s : string) : Z :=
  match s with
  | EmptyString => 0
  | String c r => (if ends_terminator c r then 1 else 0) + terminated_segments r
  end.

(** Whether a text ends in a segment that is not empty and has no line
    terminator: its last character is not one. *)
Fixpoint open_tail (s : string) : bool :=
  match s with
  | EmptyString => false
  | String c EmptyString => negb (Ascii.eqb c LF || Ascii.eqb c CR)
  | String _ r => open_tail r
  end.

(** The directory total of [k]: the sum of the line counts of the records
    whose parent directory is [k], when there is such a record. *)
Definition in_dir (k : string) (r : file_record) : bool :=
  String.eqb (dir_name (fst r)) k.

Definition total_for (k : string) (files : list file_record) : option Z :=
  match List.filter (in_dir k) files with
  | [] => None
  | rs => Some (foldr Z.add 0 (map snd rs))
  end.

(** Ascending by key, each item against all the later ones. *)
Definition ascending {A} (key : A -> Z) : list A -> Prop :=
  StronglySorted (fun a b => key a <= key b).

(** A dictionary as the finite map from its keys to their values. *)
Definition to_map (d : DefaultDict.t) : gmap string Z := list_to_map d.

(** ** Further notions *)

(** A component as a directory listing gives it: not empty, not ["."], and
    without a separator in it. *)
Definition valid_component (c : string) : bool :=
  PurePath.keeps c && negb (PyStr.contains "/" c).

(** A path as the walk of [Path('.')] yields it, or the parent of one:
    relative, and made of valid components. *)
Definition walked (p : PurePath.t) : Prop :=
  PurePath.root p = EmptyString /\
  Forall (fun c => valid_component c = true) (PurePath.tail p).

(** The distinct items of a list, in the order they first appear. *)
Definition first_seen (l : list string) : list string :=
  fold_left (fun seen k => if str_in k seen then seen else (seen ++ [k])%list) l [].

(** Reading a count field back, as [int(field)] does: the leading spaces
    are dropped and the rest is read as a decimal number. *)
Fixpoint lstrip_spaces (s : string) : string :=
  match s with
  | String c r => if Ascii.eqb c " " then lstrip_spaces r else s
  | EmptyString => EmptyString
  end.

Definition read_count (field : string) : option Z :=
  option_map Z.of_int (NilZero.int_of_string (lstrip_spaces field)).

(** The three line-ending conventions, and a text written in one of them:
    each line followed by the convention's terminator. *)
Inductive line_ending := Unix | Windows | OldMac.

Definition ending_text (t : line_ending) : string :=
  match t with
  | Unix => String LF EmptyString
  | Windows => String CR (String LF EmptyString)
  | OldMac => String CR EmptyString
  end.

Fixpoint text_of (t : line_ending) (ls : list string) : string :=
  match ls with
  | [] => EmptyString
  | l :: r => l ++ ending_text t ++ text_of t r
  end.

(** A line body: no ["\n"] and no ["\r"] in it. *)
Definition plain (s : string) : bool :=
  negb (PyStr.contains LF s || PyStr.contains CR s).

(** * Examples *)

Example suffix_app_ts : PurePath.suffix (PurePath.parse "src/app.test.ts") = ".ts".
Proof. reflexivity. Qed.

Example parent_nested :
  PurePath.str (PurePath.parent (PurePath.parse "src/lib/a.ts")) = "src/lib".
Proof. reflexivity. Qed.

Example parse_rooted :
  PurePath.parse "/usr//lib/./x" = PurePath.mk "/" ["usr"; "lib"; "x"] /\
  PurePath.parse "//srv/x" = PurePath.mk "//" ["srv"; "x"] /\
  PurePath.parse "///srv/x" = PurePath.mk "/" ["srv"; "x"].
Proof. repeat split. Qed.

Example parent_top : PurePath.str (PurePath.parent (PurePath.parse "a.ts")) = ".".
Proof. reflexivity. Qed.

Example rjust_small : PyStr.rjust 6 (PyStr.of_int 15) = "    15".
Proof. reflexivity. Qed.

Example rjust_wide : PyStr.rjust 6 (PyStr.of_int 1234567) = "1234567".
Proof. reflexivity. Qed.

Example count_two_terminated : count_lines (Opened [Ok ("a" ++ nl ++ "b" ++ nl)]) = Ok 2.
Proof. reflexivity. Qed.

Example count_crlf_split_reads :
  count_lines (Opened [Ok ("a" ++ String CR ""); Ok (nl ++ "b" ++ String CR "")]) = Ok 2.
Proof. reflexivity. Qed.

Example count_read_error :
  count_lines (Opened [Ok ("a" ++ nl); Raise (OSError 5)]) = Ok 0.
Proof. reflexivity. Qed.

(** The order of the records decides the order of the keys, not the totals. *)
Example insertion_order :
  build_dir_totals [("src/a.ts", 3); ("lib/b.ts", 4)] = [("src", 3); ("lib", 4)] /\
  build_dir_totals [("lib/b.ts", 4); ("src/a.ts", 3)] = [("lib", 4); ("src", 3)].
Proof. split; reflexivity. Qed.

(** Among equal totals the directory met first is printed first. *)
Example sort_dirs_ties :
  sort_dirs [("src", 3); ("lib", 7); (".", 3)] = [("lib", 7); ("src", 3); (".", 3)].
Proof. reflexivity. Qed.

Example scenario_output :
  main accepting (exhausted scenario) =
  {| printed := [banner; "文件行数统计（降序）"; banner;
                 "    10 行  a.ts"; "     5 行  b.js";
                 spaced_banner; "目录汇总（降序）"; banner;
                 "    15 行  ./";
                 total_row 15];
     outcome := Ok tt |}.
Proof. vm_compute. reflexivity. Qed.

(** An [is_file()] that raises ends the run before anything is printed. *)
Example locked_aborts :
  main accepting (exhausted (scenario ++ [locked_ts])) =
  {| printed := []; outcome := Raise PermissionError |}.
Proof. vm_compute. reflexivity. Qed.

(** A standard output that cannot encode the title stops the run there. *)
Example ascii_stdout_stops_at_title :
  main (fun _ s => if String.eqb s banner then None else Some UnicodeEncodeError)
       (exhausted scenario) =
  {| printed := [banner]; outcome := Raise UnicodeEncodeError |}.
Proof. vm_compute. reflexivity. Qed.

(** * Properties *)

(** ** Strings and paths *)

Lemma len_nonneg (s : string) : 0 <= PyStr.len s.
Proof. unfold PyStr.len. lia. Qed.

Lemma len_String (a : ascii) (s : string) : PyStr.len (String a s) = 1 + PyStr.len s.
Proof. unfold PyStr.len. simpl String.length. lia. Qed.

Lemma str_app_nil (t : string) : EmptyString ++ t = t.
Proof. reflexivity. Qed.

Lemma str_app_cons (a : ascii) (s t : string) : String a s ++ t = String a (s ++ t).
Proof. reflexivity. Qed.

Lemma len_app (s t : string) : PyStr.len (s ++ t) = PyStr.len s + PyStr.len t.
Proof.
  induction s as [|a s IH].
  - rewrite str_app_nil. change (PyStr.len EmptyString) with 0. lia.
  - rewrite str_app_cons, !len_String, IH. lia.
Qed.

(** Without an occurrence the scan keeps what it started from. *)
Lemma rfind_from_absent (c : ascii) (s : string) (i last : Z) :
  PyStr.contains c s = false -> PyStr.rfind_from c s i last = last.
Proof.
  revert i last. induction s as [|a s IH]; intros i last H; simpl in *.
  - reflexivity.
  - apply orb_false_elim in H as [Ha Hs]. rewrite Ha. now apply IH.
Qed.

(** An occurrence followed by none is the last one. *)
Lemma rfind_from_app (c : ascii) (s t : string) (i last : Z) :
  PyStr.contains c t = false ->
  PyStr.rfind_from c (s ++ String c t) i last = i + PyStr.len s.
Proof.
  revert i last. induction s as [|a s IH]; intros i last H.
  - rewrite str_app_nil. simpl.
    rewrite Ascii.eqb_refl, rfind_from_absent by assumption.
    change (PyStr.len EmptyString) with 0. lia.
  - rewrite str_app_cons. simpl.
    rewrite IH by assumption. rewrite len_String. lia.
Qed.

Lemma rfind_absent (c : ascii) (s : string) :
  PyStr.contains c s = false -> PyStr.rfind c s = -1.
Proof. apply rfind_from_absent. Qed.

Lemma rfind_app (c : ascii) (s t : string) :
  PyStr.contains c t = false -> PyStr.rfind c (s ++ String c t) = PyStr.len s.
Proof. intros H. unfold PyStr.rfind. now rewrite rfind_from_app. Qed.

Lemma drop_app (s t : string) : PyStr.drop (String.length s) (s ++ t) = t.
Proof.
  induction s as [|a s IH].
  - rewrite str_app_nil. now destruct t.
  - rewrite str_app_cons. exact IH.
Qed.

(** A string without the separator splits into itself. *)
Lemma split_absent (sep : ascii) (s : string) :
  PyStr.contains sep s = false -> PyStr.split sep s = [s].
Proof.
  induction s as [|a s IH]; intros H; simpl in *.
  - reflexivity.
  - apply orb_false_elim in H as [Ha Hs]. rewrite Ha, (IH Hs). reflexivity.
Qed.

Lemma last_snoc {A} (l : list A) (x d : A) : List.last (l ++ [x])%list d = x.
Proof. apply List.last_last. Qed.

(** The suffix of a name is what follows its last period, when that period
    is neither the first nor the last character. *)
Lemma suffix_final_dot (root : string) (dirs : list string) (stem ext : string) :
  PyStr.contains "." ext = false ->
  PurePath.suffix (PurePath.mk root (dirs ++ [(stem ++ String "." ext)%string])%list) =
  match stem, ext with
  | EmptyString, _ | _, EmptyString => EmptyString
  | _, _ => String "." ext
  end.
Proof.
  intros Hext. unfold PurePath.suffix, PurePath.name. cbn [PurePath.tail].
  rewrite last_snoc, rfind_app by assumption.
  rewrite len_app, len_String.
  destruct stem as [|a stem].
  - change (PyStr.len EmptyString) with 0. rewrite Z.ltb_irrefl.
    now destruct ext.
  - destruct ext as [|b ext].
    + change (PyStr.len EmptyString) with 0.
      destruct (Z.ltb_spec (PyStr.len (String a stem))
                           (PyStr.len (String a stem) + (1 + 0) - 1)); [lia|].
      now rewrite andb_false_r.
    + pose proof (len_nonneg stem) as Hs. pose proof (len_nonneg ext) as He.
      pose proof (len_String a stem) as Ha. pose proof (len_String b ext) as Hb.
      destruct (Z.ltb_spec 0 (PyStr.len (String a stem))); [|lia].
      destruct (Z.ltb_spec (PyStr.len (String a stem))
                  (PyStr.len (String a stem) + (1 + PyStr.len (String b ext)) - 1));
        [|lia].
      cbn [andb].
      replace (Z.to_nat (PyStr.len (String a stem))) with (String.length (String a stem))
        by (unfold PyStr.len; lia).
      apply drop_app.
Qed.

(** A name whose last period is its first character, or that has none, has
    no suffix. *)
Lemma suffix_none (p : PurePath.t) :
  PyStr.rfind "." (PurePath.name p) <= 0 -> PurePath.suffix p = EmptyString.
Proof.
  intros H. unfold PurePath.suffix.
  replace (0 <? _) with false; [reflexivity|].
  symmetry. apply Z.ltb_ge. exact H.
Qed.

(** A path string without a separator names an entry of the current
    directory, whose parent prints as ["."]. *)
Lemma dir_name_top (name : string) :
  PyStr.contains "/" name = false -> dir_name name = ".".
Proof.
  intros H. unfold dir_name, PurePath.parse.
  assert (Hroot : PurePath.splitroot name = (EmptyString, name)).
  { unfold PurePath.splitroot. destruct name as [|a r]; [reflexivity|].
    simpl in H. apply orb_false_elim in H as [Ha _].
    unfold PyStr.head_is. now rewrite Ha. }
  rewrite Hroot, (split_absent _ _ H). cbn [List.filter].
  now destruct (PurePath.keeps name).
Qed.

(** ** The dictionary *)

Module DictFacts.
Import DefaultDict.

Lemma get_setitem (d : t) (k k' : string) (v : Z) :
  get (setitem d k v) k' = if String.eqb k k' then Some v else get d k'.
Proof.
  induction d as [|[k0 v0] d IH]; simpl.
  - reflexivity.
  - destruct (String.eqb_spec k0 k) as [->|Hk0]; simpl.
    + now destruct (String.eqb k k').
    + rewrite IH. destruct (String.eqb_spec k0 k') as [->|]; [|reflexivity].
      destruct (String.eqb_spec k k'); congruence.
Qed.

Lemma get_iadd (d : t) (k k' : string) (n : Z) :
  get (iadd d k n) k' =
  if String.eqb k k' then Some (default 0 (get d k) + n) else get d k'.
Proof.
  unfold iadd, getitem. destruct (get d k) as [v|] eqn:Hk; simpl.
  - apply get_setitem.
  - rewrite !get_setitem. now destruct (String.eqb k k').
Qed.

Lemma keys_setitem (d : t) (k : string) (v : Z) :
  keys (setitem d k v) =
  match get d k with Some _ => keys d | None => (keys d ++ [k])%list end.
Proof.
  unfold keys. induction d as [|[k0 v0] d IH]; simpl.
  - reflexivity.
  - destruct (String.eqb k0 k); simpl; [reflexivity|].
    rewrite IH. now destruct (get d k).
Qed.

Lemma get_Some_keys (d : t) (k : string) :
  k ∈ keys d <-> get d k <> None.
Proof.
  unfold keys. induction d as [|[k0 v0] d IH]; simpl.
  - rewrite elem_of_nil. tauto.
  - rewrite elem_of_cons.
    destruct (String.eqb_spec k0 k) as [->|Hne].
    + split; [discriminate | now left].
    + rewrite IH. split; [intros [?|?]; congruence | now right].
Qed.

Lemma keys_iadd (d : t) (k : string) (n : Z) :
  keys (iadd d k n) =
  match get d k with Some _ => keys d | None => (keys d ++ [k])%list end.
Proof.
  unfold iadd, getitem. destruct (get d k) as [v|] eqn:Hk.
  - now rewrite keys_setitem, Hk.
  - rewrite keys_setitem, get_setitem, String.eqb_refl.
    now rewrite keys_setitem, Hk.
Qed.

(** Every key is held once. *)
Lemma NoDup_keys_iadd (d : t) (k : string) (n : Z) :
  NoDup (keys d) -> NoDup (keys (iadd d k n)).
Proof.
  intros Hd. rewrite keys_iadd. destruct (get d k) eqn:Hk; [assumption|].
  apply NoDup_app. repeat split.
  - exact Hd.
  - intros x Hx Hx'. apply list_elem_of_singleton in Hx'. subst x.
    apply get_Some_keys in Hx. congruence.
  - apply NoDup_singleton.
Qed.

(** The finite map of a dictionary answers what [get] answers. *)
Lemma to_map_lookup (d : t) (k : string) : to_map d !! k = get d k.
Proof.
  unfold to_map. induction d as [|[k0 v0] d IH]; simpl.
  - apply lookup_empty.
  - destruct (String.eqb_spec k0 k) as [->|Hne].
    + apply lookup_insert_eq.
    + rewrite lookup_insert_ne by assumption. exact IH.
Qed.

Lemma sum_values_setitem (d : t) (k : string) (v : Z) :
  foldr Z.add 0 (values (setitem d k v)) =
  foldr Z.add 0 (values d) - default 0 (get d k) + v.
Proof.
  unfold values. induction d as [|[k0 v0] d IH]; simpl.
  - lia.
  - destruct (String.eqb k0 k); simpl; [lia | rewrite IH; lia].
Qed.

Lemma sum_values_iadd (d : t) (k : string) (n : Z) :
  foldr Z.add 0 (values (iadd d k n)) = foldr Z.add 0 (values d) + n.
Proof.
  unfold iadd, getitem. destruct (get d k) as [v|] eqn:Hk.
  - rewrite sum_values_setitem, Hk. simpl. lia.
  - rewrite !sum_values_setitem, get_setitem, String.eqb_refl, Hk. simpl. lia.
Qed.

End DictFacts.

(** ** Sums *)

Lemma fold_left_add (l : list Z) (a : Z) : fold_left Z.add l a = a + foldr Z.add 0 l.
Proof.
  revert a. induction l as [|x l IH]; intros a; simpl; [lia | rewrite IH; lia].
Qed.

Lemma py_sum_foldr (l : list Z) : py_sum l = foldr Z.add 0 l.
Proof. unfold py_sum. rewrite fold_left_add. lia. Qed.

Lemma foldr_add_perm (l1 l2 : list Z) :
  l1 ≡ₚ l2 -> foldr Z.add 0 l1 = foldr Z.add 0 l2.
Proof. induction 1; simpl; lia. Qed.

Lemma filter_perm {A} (f : A -> bool) (l1 l2 : list A) :
  l1 ≡ₚ l2 -> List.filter f l1 ≡ₚ List.filter f l2.
Proof.
  induction 1 as [|x l1 l2 _ IH|x y l|l1 l2 l3 _ IH1 _ IH2]; simpl.
  - reflexivity.
  - destruct (f x); [now constructor | assumption].
  - destruct (f x), (f y); try reflexivity. apply perm_swap.
  - now transitivity (List.filter f l2).
Qed.

(** ** Directory totals *)

Section Totals.
Import DefaultDict DictFacts.

Lemma build_dir_totals_fold (files : list file_record) :
  build_dir_totals files = fold_left add_record files empty.
Proof. reflexivity. Qed.

Lemma total_for_cons (k : string) (r : file_record) (files : list file_record) :
  total_for k (r :: files) =
  if in_dir k r then Some (snd r + default 0 (total_for k files))
  else total_for k files.
Proof.
  unfold total_for. simpl. destruct (in_dir k r); [|reflexivity].
  destruct (List.filter (in_dir k) files); simpl; reflexivity.
Qed.

(** What the loop leaves under a key, from any dictionary it starts with. *)
Lemma get_fold_add_record (files : list file_record) (d : DefaultDict.t) (k : string) :
  get (fold_left add_record files d) k =
  match total_for k files with
  | None => get d k
  | Some s => Some (default 0 (get d k) + s)
  end.
Proof.
  revert d. induction files as [|[p n] files IH]; intros d.
  - reflexivity.
  - cbn [fold_left]. rewrite IH, total_for_cons. unfold add_record, in_dir. cbn [fst snd].
    rewrite get_iadd.
    destruct (String.eqb (dir_name p) k) eqn:Hk.
    + apply String.eqb_eq in Hk. subst k.
      destruct (total_for (dir_name p) files); simpl; f_equal; lia.
    + reflexivity.
Qed.

(** The dictionary holds, under each key, that directory's total. *)
Lemma get_build_dir_totals (files : list file_record) (k : string) :
  get (build_dir_totals files) k = total_for k files.
Proof.
  rewrite build_dir_totals_fold, get_fold_add_record. simpl.
  destruct (total_for k files); [f_equal; lia | reflexivity].
Qed.

Lemma NoDup_keys_fold (files : list file_record) (d : DefaultDict.t) :
  NoDup (keys d) -> NoDup (keys (fold_left add_record files d)).
Proof.
  revert d. induction files as [|[p n] files IH]; intros d Hd; simpl.
  - assumption.
  - apply IH. now apply NoDup_keys_iadd.
Qed.

Lemma NoDup_keys_build (files : list file_record) :
  NoDup (keys (build_dir_totals files)).
Proof. rewrite build_dir_totals_fold. apply NoDup_keys_fold. constructor. Qed.

Lemma sum_values_fold (files : list file_record) (d : DefaultDict.t) :
  foldr Z.add 0 (values (fold_left add_record files d)) =
  foldr Z.add 0 (values d) + foldr Z.add 0 (map snd files).
Proof.
  revert d. induction files as [|[p n] files IH]; intros d; simpl.
  - lia.
  - rewrite IH, sum_values_iadd. lia.
Qed.

Lemma total_for_perm (k : string) (l1 l2 : list file_record) :
  l1 ≡ₚ l2 -> total_for k l1 = total_for k l2.
Proof.
  intros H. apply (filter_perm (in_dir k)) in H. unfold total_for.
  destruct (List.filter (in_dir k) l1) as [|r1 rs1] eqn:E1.
  - apply Permutation_nil in H. now rewrite H.
  - destruct (List.filter (in_dir k) l2) as [|r2 rs2] eqn:E2.
    + symmetry in H. apply Permutation_nil in H. discriminate.
    + f_equal. apply foldr_add_perm. now apply Permutation_map.
Qed.

End Totals.

(** ** The stable sort *)

Section SortFacts.
Context {A : Type} (key : A -> Z).

Lemma insert_by_key_perm (x : A) (l : list A) : insert_by_key key x l ≡ₚ x :: l.
Proof.
  induction l as [|y l IH]; simpl.
  - reflexivity.
  - destruct (key x <=? key y); [reflexivity|].
    rewrite IH. apply perm_swap.
Qed.

Lemma sort_by_key_perm (l : list A) : sort_by_key key l ≡ₚ l.
Proof.
  induction l as [|x l IH]; simpl.
  - reflexivity.
  - rewrite insert_by_key_perm. now constructor.
Qed.

Lemma insert_by_key_ascending (x : A) (l : list A) :
  ascending key l -> ascending key (insert_by_key key x l).
Proof.
  unfold ascending. induction 1 as [|y l Hl IH Hy]; simpl.
  - repeat constructor.
  - destruct (Z.leb_spec (key x) (key y)) as [Hxy|Hxy].
    + constructor; [now constructor|].
      constructor; [assumption|].
      eapply List.Forall_impl; [|exact Hy]. simpl. intros b Hb. lia.
    + constructor; [assumption|].
      rewrite insert_by_key_perm.
      constructor; [lia | assumption].
Qed.

Lemma sort_by_key_ascending (l : list A) : ascending key (sort_by_key key l).
Proof.
  induction l as [|x l IH]; simpl.
  - constructor.
  - now apply insert_by_key_ascending.
Qed.

(** In an ascending list, neighbours are in order. *)
Lemma ascending_neighbours (l : list A) (i : nat) (a b : A) :
  ascending key l -> l !! i = Some a -> l !! S i = Some b -> key a <= key b.
Proof.
  intros Hl. revert i. induction Hl as [|y l Hl IH Hy]; intros i Ha Hb.
  - discriminate.
  - destruct i as [|i]; simpl in *.
    + injection Ha as ->. rewrite List.Forall_forall in Hy. apply Hy.
      apply list_elem_of_In. eapply list_elem_of_lookup_2. exact Hb.
    + eapply IH; eassumption.
Qed.

(** Stability: the items of one key stand in the order they came in. *)
Lemma insert_by_key_stable (c : Z) (x : A) (l : list A) :
  List.filter (fun y => key y =? c) (insert_by_key key x l) =
  List.filter (fun y => key y =? c) (x :: l).
Proof.
  induction l as [|y l IH]; simpl.
  - reflexivity.
  - destruct (Z.leb_spec (key x) (key y)) as [Hxy|Hxy]; [reflexivity|].
    simpl. rewrite IH. simpl.
    destruct (Z.eqb_spec (key x) c), (Z.eqb_spec (key y) c); try reflexivity. lia.
Qed.

Lemma sort_by_key_stable (c : Z) (l : list A) :
  List.filter (fun y => key y =? c) (sort_by_key key l) =
  List.filter (fun y => key y =? c) l.
Proof.
  induction l as [|x l IH]; simpl.
  - reflexivity.
  - rewrite insert_by_key_stable. simpl. now rewrite IH.
Qed.

End SortFacts.

(** ** Counting lines *)

Lemma sum_ones_length {A} (l : list A) : sum_ones l = Z.of_nat (length l).
Proof.
  unfold sum_ones.
  assert (H : forall a, fold_left (fun acc (_ : A) => acc + 1) l a = a + Z.of_nat (length l)).
  { induction l as [|x l IH]; intros a; simpl length; cbn [fold_left].
    - lia.
    - rewrite IH. lia. }
  rewrite H. lia.
Qed.

Lemma iter_lines_nil (s : string) : iter_lines s = [] -> s = EmptyString.
Proof.
  destruct s as [|c r]; [reflexivity|]. simpl.
  destruct (Ascii.eqb c LF); [discriminate|].
  destruct (Ascii.eqb c CR).
  - destruct r as [|c' r']; [discriminate|]. destruct (Ascii.eqb c' LF); discriminate.
  - destruct (iter_lines r); discriminate.
Qed.

Lemma open_tail_String (c : ascii) (r : string) :
  r <> EmptyString -> open_tail (String c r) = open_tail r.
Proof. destruct r; [congruence | reflexivity]. Qed.

(** The iteration yields the terminated segments and, after them, the
    unterminated rest when there is one. *)
Lemma iter_lines_count (s : string) :
  Z.of_nat (length (iter_lines s)) =
  terminated_segments s + (if open_tail s then 1 else 0).
Proof.
  remember (String.length s) as n eqn:Hn.
  revert s Hn. induction n as [n IH] using lt_wf_ind. intros s Hn.
  destruct s as [|c r]; [reflexivity|].
  assert (IHr : Z.of_nat (length (iter_lines r)) =
                terminated_segments r + (if open_tail r then 1 else 0)).
  { apply (IH (String.length r)); [subst n; simpl; lia | reflexivity]. }
  cbn [iter_lines terminated_segments]. unfold ends_terminator.
  destruct (Ascii.eqb c LF) eqn:Hlf; cbn [orb].
  - cbn [length]. destruct r as [|c' r'].
    + cbn [open_tail]. rewrite Hlf. reflexivity.
    + rewrite open_tail_String by discriminate. lia.
  - destruct (Ascii.eqb c CR) eqn:Hcr; cbn [andb].
    + destruct r as [|c' r'].
      * cbn [open_tail]. rewrite Hlf, Hcr. reflexivity.
      * rewrite open_tail_String by discriminate. cbn [PyStr.head_is].
        destruct (Ascii.eqb c' LF) eqn:Hlf'; cbn [negb length]; [|lia].
        cbn [iter_lines] in IHr. rewrite Hlf' in IHr. cbn [length] in IHr. lia.
    + destruct r as [|c' r'].
      * cbn [iter_lines open_tail terminated_segments length]. rewrite Hlf, Hcr. reflexivity.
      * rewrite open_tail_String by discriminate.
        destruct (iter_lines (String c' r')) as [|l ls] eqn:Hit.
        -- apply iter_lines_nil in Hit. discriminate.
        -- cbn [length] in *. lia.
Qed.

Lemma count_lines_body_read (f : file_node) :
  count_lines_body f =
  let* text := read_text f in Ok (Z.of_nat (length (iter_lines text))).
Proof.
  unfold count_lines_body, read_text. destruct (open_ f) as [reads|x]; simpl; [|reflexivity].
  destruct (read_all reads); simpl; [|reflexivity]. now rewrite sum_ones_length.
Qed.

(** [count_lines] returns, whatever the file does: the count when the file
    reads to its end, [0] when anything was raised on the way. *)
Lemma count_lines_cases (f : file_node) :
  count_lines f =
  match read_text f with
  | Ok text => Ok (Z.of_nat (length (iter_lines text)))
  | Raise _ => Ok 0
  end.
Proof.
  unfold count_lines. rewrite count_lines_body_read.
  now destruct (read_text f).
Qed.

Lemma count_lines_returns (f : file_node) : exists n, count_lines f = Ok n /\ 0 <= n.
Proof.
  rewrite count_lines_cases. destruct (read_text f) as [text|x]; eexists; split;
    try reflexivity; lia.
Qed.

Lemma count_lines_counted (f : file_node) : count_lines f = Ok (counted f).
Proof.
  unfold counted. destruct (count_lines_returns f) as (n & -> & _). reflexivity.
Qed.

Lemma counted_nonneg (f : file_node) : 0 <= counted f.
Proof.
  unfold counted. destruct (count_lines_returns f) as (n & -> & Hn). exact Hn.
Qed.

(** ** The scan *)

Lemma str_in_elem (x : string) (l : list string) : str_in x l = true <-> x ∈ l.
Proof.
  unfold str_in. rewrite existsb_exists. split.
  - intros (y & Hy & Heq). apply String.eqb_eq in Heq. subst y.
    now apply list_elem_of_In.
  - intros H. exists x. split; [now apply list_elem_of_In | apply String.eqb_refl].
Qed.

Lemma ignored_elem (parts : list string) :
  existsb (fun d => str_in d parts) IGNORE_DIRS = false <->
  forall c, c ∈ parts -> c ∉ IGNORE_DIRS.
Proof.
  rewrite <- not_true_iff_false, existsb_exists. split.
  - intros H c Hc Hin. apply H. exists c. split; [now apply list_elem_of_In|].
    now apply str_in_elem.
  - intros H (d & Hd & Hin). apply str_in_elem in Hin.
    apply (H d Hin). now apply list_elem_of_In.
Qed.

Lemma selected_qualifying (e : entry) : selected e = true <-> qualifying e.
Proof.
  unfold selected, qualifying. destruct (is_file e) as [regular|x].
  - rewrite !andb_true_iff, negb_true_iff, str_in_elem, ignored_elem. split.
    + intros [[-> Hext] Hdirs]. auto.
    + intros (Hreg & Hext & Hdirs). injection Hreg as ->. auto.
  - split; [discriminate | intros (Hreg & _); discriminate].
Qed.

(** The loop body raises what [is_file()] raises and nothing else. *)
Lemma visit_cases (fs : list file_record) (e : entry) :
  visit fs e =
  let* _ := is_file e in Ok (if selected e then fs ++ [record_of e] else fs)%list.
Proof.
  unfold visit, selected, record_of. destruct (is_file e) as [regular|x]; cbn [bind];
    [|reflexivity].
  destruct (regular && str_in (PurePath.suffix (path e)) EXTENSIONS); [|reflexivity].
  destruct (existsb _ IGNORE_DIRS); [reflexivity|].
  now rewrite count_lines_counted.
Qed.

(** The loop appends to [files] what it would have put in an empty list. *)
Lemma for_each_visit (walk : list entry) (fs : list file_record) :
  for_each visit walk fs = let* s := scan walk in Ok (fs ++ s)%list.
Proof.
  unfold scan. revert fs. induction walk as [|e walk IH]; intros fs; cbn [for_each bind].
  - now rewrite app_nil_r.
  - rewrite !visit_cases. destruct (is_file e) as [regular|x]; cbn [bind]; [|reflexivity].
    rewrite IH, (IH (if selected e then _ else _)).
    destruct (for_each visit walk []) as [s|x]; cbn [bind]; [|reflexivity].
    destruct (selected e); cbn [app]; [now rewrite <- app_assoc | reflexivity].
Qed.

Lemma scan_cons (e : entry) (walk : list entry) :
  scan (e :: walk) =
  let* _ := is_file e in
  let* s := scan walk in
  Ok ((if selected e then [record_of e] else []) ++ s)%list.
Proof.
  unfold scan at 1. cbn [for_each]. rewrite visit_cases.
  destruct (is_file e) as [regular|x]; cbn [bind]; [|reflexivity].
  rewrite for_each_visit. now destruct (selected e).
Qed.

Lemma scan_app (w1 w2 : list entry) :
  scan (w1 ++ w2) = let* a := scan w1 in let* b := scan w2 in Ok (a ++ b)%list.
Proof.
  induction w1 as [|e w1 IH].
  - cbn [app]. change (scan []) with (@Ok (list file_record) []). cbn [bind].
    now destruct (scan w2).
  - cbn [app]. rewrite !scan_cons, IH.
    destruct (is_file e) as [regular|x]; cbn [bind]; [|reflexivity].
    destruct (scan w1) as [a|x]; cbn [bind]; [|reflexivity].
    destruct (scan w2) as [b|x]; cbn [bind]; [|reflexivity].
    now rewrite app_assoc.
Qed.

(** A scan that returns has recorded, in the order of the walk, the
    selected entries, and [is_file()] has answered for every entry. *)
Lemma scan_Ok (walk : list entry) (s : list file_record) :
  scan walk = Ok s ->
  s = map record_of (List.filter selected walk) /\ Forall answers walk.
Proof.
  revert s. induction walk as [|e walk IH]; intros s Hs.
  - injection Hs as <-. now split.
  - rewrite scan_cons in Hs. destruct (is_file e) as [regular|x] eqn:He; [|discriminate].
    cbn [bind] in Hs. destruct (scan walk) as [s'|x]; [|discriminate].
    cbn [bind] in Hs. injection Hs as <-. destruct (IH s' eq_refl) as [-> Hall].
    split; [|constructor; [now exists regular | assumption]].
    cbn [List.filter]. now destruct (selected e).
Qed.

Lemma scan_answers (walk : list entry) :
  Forall answers walk -> scan walk = Ok (map record_of (List.filter selected walk)).
Proof.
  induction 1 as [|e walk [regular He] _ IH]; [reflexivity|].
  rewrite scan_cons, He, IH. cbn [bind List.filter]. now destruct (selected e).
Qed.

Lemma snoc_neq {A} (l : list A) (x : A) : (l ++ [x])%list <> l.
Proof.
  intros H. apply (f_equal (@length A)) in H. rewrite length_app in H. simpl in H. lia.
Qed.

Lemma elem_of_sort_files (r : file_record) (scanned : list file_record) :
  r ∈ sort_files scanned <-> r ∈ scanned.
Proof. unfold sort_files. now rewrite sort_by_key_perm. Qed.

(** * The claims *)

(** C1: an entry of the walk makes a record of [files], and so a row of the
    report, if and only if it is a regular file, its extension is one of
    [EXTENSIONS] and no component of its relative path, at any depth, is one
    of [IGNORE_DIRS]. The loop body appends the record of a qualifying entry;
    it leaves [files] alone for an entry [is_file()] answers for and that
    does not qualify; it raises exactly what [is_file()] raises. The records
    of the report of a scan that returns are those of the qualifying entries
    of the walk. *)
Theorem C1_record_iff_qualifying :
  (forall (e : entry) (fs : list file_record),
      ((exists lines, visit fs e = Ok (fs ++ [(PurePath.str (path e), lines)])%list)
       <-> qualifying e) /\
      (visit fs e = Ok fs <-> answers e /\ ~ qualifying e) /\
      (forall x, visit fs e = Raise x <-> is_file e = Raise x)) /\
  (forall (walk : list entry) (scanned : list file_record),
      scan walk = Ok scanned ->
      forall r, r ∈ files (make_report scanned) <->
        exists e, e ∈ walk /\ qualifying e /\
                  fst r = PurePath.str (path e) /\ count_lines (node e) = Ok (snd r)).
Proof.
  split.
  - intros e fs. rewrite <- selected_qualifying, visit_cases. unfold answers.
    destruct (is_file e) as [regular|x] eqn:He; cbn [bind].
    + destruct (selected e); (split; [|split]).
      * split; [reflexivity | intros _; now exists (counted (node e))].
      * split; [|intros [_ H]; now contradiction H].
        intros H. injection H as H. now apply snoc_neq in H.
      * intros x. split; discriminate.
      * split; [|discriminate].
        intros (lines & H). injection H as H. symmetry in H. now apply snoc_neq in H.
      * split; [|reflexivity]. intros _. split; [now exists regular | discriminate].
      * intros x. split; discriminate.
    + split; [|split].
      * split; [intros (lines & H); discriminate|].
        unfold selected. rewrite He. discriminate.
      * split; [discriminate | intros [[regular H] _]; discriminate].
      * intros y. split; intros H; now injection H as ->.
  - intros walk scanned Hscan. apply scan_Ok in Hscan as [-> _].
    intros r. cbn [files make_report]. rewrite elem_of_sort_files, list_elem_of_fmap.
    split.
    + intros (e & -> & He). apply list_elem_of_In, filter_In in He as [He Hsel].
      exists e. split; [|split; [|split]].
      * now apply list_elem_of_In.
      * now apply selected_qualifying.
      * reflexivity.
      * apply count_lines_counted.
    + intros (e & He & Hq & Hp & Hc). exists e. split.
      * destruct r as [p n]. simpl in *. subst p. unfold record_of. f_equal.
        rewrite count_lines_counted in Hc. now injection Hc.
      * apply list_elem_of_In, filter_In. split; [now apply list_elem_of_In|].
        now apply selected_qualifying.
Qed.

Lemma C1_record_iff_qualifying_witness :
  (exists lines, visit [] a_ts = Ok [(PurePath.str (path a_ts), lines)]) /\
  (("a.ts", 10) ∈ files (make_report [("b.js", 5); ("a.ts", 10)]) <->
   exists e, e ∈ scenario /\ qualifying e /\
             fst ("a.ts", 10) = PurePath.str (path e) /\
             count_lines (node e) = Ok (snd ("a.ts", 10))).
Proof.
  split.
  - apply (proj2 (proj1 (proj1 C1_record_iff_qualifying a_ts []))).
    apply selected_qualifying. reflexivity.
  - apply (proj2 C1_record_iff_qualifying scenario [("b.js", 5); ("a.ts", 10)]).
    reflexivity.
Defined.

(** C2: every record's line count is a non-negative integer, and the sum of
    the values of [dir_totals] equals the grand total that is printed, which
    equals the sum of the line counts of the files. The counts are those of
    the records a scan hands over; the sums agree for every list of records. *)
Theorem C2_totals_add_up :
  (forall (walk : list entry) (scanned : list file_record),
      scan walk = Ok scanned ->
      Forall (fun r => 0 <= snd r) (files (make_report scanned))) /\
  (forall (scanned : list file_record),
      py_sum (DefaultDict.values (dir_totals (make_report scanned)))
      = grand_total (files (make_report scanned)) /\
      grand_total (files (make_report scanned)) = foldr Z.add 0 (map snd scanned) /\
      List.last (print_report (make_report scanned)) EmptyString
      = total_row (py_sum (DefaultDict.values (dir_totals (make_report scanned))))).
Proof.
  assert (Hsum : forall scanned,
             py_sum (DefaultDict.values (dir_totals (make_report scanned)))
             = grand_total (files (make_report scanned))).
  { intros scanned. cbn [files dir_totals make_report]. unfold grand_total.
    rewrite !py_sum_foldr, build_dir_totals_fold, sum_values_fold. reflexivity. }
  split.
  - intros walk scanned Hscan. apply scan_Ok in Hscan as [-> _].
    cbn [files make_report]. unfold sort_files. rewrite sort_by_key_perm.
    apply Forall_fmap, Forall_forall. intros e _. apply counted_nonneg.
  - intros scanned. split; [apply Hsum|]. split.
    + cbn [files make_report]. unfold grand_total, sort_files.
      rewrite py_sum_foldr. apply foldr_add_perm, Permutation_map, sort_by_key_perm.
    + rewrite Hsum. unfold print_report.
      rewrite !app_assoc. apply last_snoc.
Qed.

Lemma C2_totals_add_up_witness :
  Forall (fun r => 0 <= snd r) (files (make_report [("b.js", 5); ("a.ts", 10)])).
Proof.
  apply (proj1 C2_totals_add_up scenario [("b.js", 5); ("a.ts", 10)]). reflexivity.
Defined.

(** C3, as the code has it: for a file that opens and reads to its end,
    [count_lines] returns the number of lines the iteration yields, that is
    the number of line-terminated segments plus one when the text ends in a
    segment that is not empty and has no terminator. With no such trailing
    segment the count is the number of line-terminated segments. *)
Theorem C3_count_lines_counts_iterated_lines :
  forall (f : file_node) (text : string),
    read_text f = Ok text ->
    count_lines f = Ok (terminated_segments text + (if open_tail text then 1 else 0)) /\
    (open_tail text = false -> count_lines f = Ok (terminated_segments text)).
Proof.
  intros f text Hread.
  assert (H : count_lines f =
              Ok (terminated_segments text + (if open_tail text then 1 else 0))).
  { rewrite count_lines_cases, Hread, iter_lines_count. reflexivity. }
  split; [exact H|].
  intros Htail. rewrite H, Htail. f_equal. lia.
Qed.

Lemma C3_count_lines_counts_iterated_lines_witness :
  count_lines (Opened [Ok ("a" ++ nl ++ "b")]) = Ok 2.
Proof.
  apply (proj1 (C3_count_lines_counts_iterated_lines
                  (Opened [Ok ("a" ++ nl ++ "b")]) ("a" ++ nl ++ "b") eq_refl)).
Defined.

(** C3 as stated fails: a file holding [abc] with no line terminator reads
    to its end, has no line-terminated segment, and counts one line. *)
Lemma C3_unterminated_tail_is_counted :
  read_text (Opened [Ok "abc"]) = Ok "abc" /\
  terminated_segments "abc" = 0 /\
  count_lines (Opened [Ok "abc"]) = Ok 1 /\
  count_lines (Opened [Ok "abc"]) <> Ok (terminated_segments "abc").
Proof. repeat split. discriminate. Qed.

(** C4: [count_lines] never lets a failure out. It returns for every file;
    when opening or reading raises, whatever is raised, it returns [0], a
    qualifying file is still recorded, with count [0], and the scan goes on:
    the scan of a walk through such a file is the scan of what comes before
    it, the record with count [0], and the scan of what comes after it. *)
Theorem C4_count_lines_swallows_failures :
  (forall (f : file_node), exists n, count_lines f = Ok n) /\
  (forall (e : entry) (x : exn) (pre post : list entry),
      count_lines_body (node e) = Raise x ->
      count_lines (node e) = Ok 0 /\
      (qualifying e ->
       visit [] e = Ok [(PurePath.str (path e), 0)] /\
       scan (pre ++ e :: post) =
       let* before := scan pre in
       let* after := scan post in
       Ok (before ++ (PurePath.str (path e), 0) :: after)%list)).
Proof.
  split.
  - intros f. destruct (count_lines_returns f) as (n & Hn & _). now exists n.
  - intros e x pre post Hraise.
    assert (H0 : count_lines (node e) = Ok 0).
    { unfold count_lines. now rewrite Hraise. }
    split; [exact H0|].
    intros Hq. pose proof Hq as (Hreg & _). apply selected_qualifying in Hq.
    assert (Hrec : record_of e = (PurePath.str (path e), 0)).
    { unfold record_of, counted. now rewrite H0. }
    split.
    + rewrite visit_cases, Hreg, Hq, Hrec. reflexivity.
    + rewrite scan_app, scan_cons, Hreg, Hq, Hrec. cbn [bind].
      destruct (scan pre) as [before|y]; cbn [bind]; [|reflexivity].
      now destruct (scan post).
Qed.

Lemma C4_count_lines_swallows_failures_witness :
  count_lines (node vanished_ts) = Ok 0 /\
  scan ([a_ts] ++ vanished_ts :: [a_ts]) = Ok [("a.ts", 10); ("src/gone.ts", 0); ("a.ts", 10)].
Proof.
  destruct (proj2 C4_count_lines_swallows_failures
              vanished_ts FileNotFoundError [a_ts] [a_ts] eq_refl) as [H0 Hscan].
  split; [exact H0|].
  destruct Hscan as [_ Hscan]; [apply selected_qualifying; reflexivity|].
  rewrite Hscan. reflexivity.
Defined.

Lemma ascending_negated_neighbours {A} (count : A -> Z) (l : list A) (i : nat) (a b : A) :
  ascending (fun x => - count x) l ->
  l !! i = Some a -> l !! S i = Some b -> count a >= count b.
Proof.
  intros Hl Ha Hb.
  pose proof (ascending_neighbours (fun x => - count x) l i a b Hl Ha Hb). simpl in *. lia.
Qed.

(** C5: in the report, each file row's count is at least the count of the
    row after it, records with equal counts keep the order the scan found
    them in, and each directory row's total is at least the total of the row
    after it. *)
Theorem C5_rows_descending_and_stable :
  forall (scanned : list file_record),
    (forall (i : nat) (a b : file_record),
        files (make_report scanned) !! i = Some a ->
        files (make_report scanned) !! S i = Some b ->
        snd a >= snd b) /\
    (forall (c : Z),
        List.filter (fun r => snd r =? c) (files (make_report scanned))
        = List.filter (fun r => snd r =? c) scanned) /\
    (forall (i : nat) (a b : string * Z),
        sort_dirs (dir_totals (make_report scanned)) !! i = Some a ->
        sort_dirs (dir_totals (make_report scanned)) !! S i = Some b ->
        snd a >= snd b).
Proof.
  intros scanned. cbn [files dir_totals make_report]. unfold sort_files, sort_dirs.
  split; [|split].
  - intros i a b. apply ascending_negated_neighbours, sort_by_key_ascending.
  - intros c.
    assert (Hext : forall r : file_record, (snd r =? c) = (- snd r =? - c)).
    { intros r. destruct (Z.eqb_spec (snd r) c), (Z.eqb_spec (- snd r) (- c));
        try reflexivity; lia. }
    rewrite !(List.filter_ext _ _ Hext).
    apply (sort_by_key_stable (fun x : file_record => - snd x) (- c) scanned).
  - intros i a b. apply ascending_negated_neighbours, sort_by_key_ascending.
Qed.

Lemma C5_rows_descending_and_stable_witness :
  files (make_report [("a.ts", 5); ("b.ts", 9); ("c.ts", 5)])
  = [("b.ts", 9); ("a.ts", 5); ("c.ts", 5)] /\ 9 >= 5.
Proof.
  split; [reflexivity|].
  apply (proj1 (C5_rows_descending_and_stable [("a.ts", 5); ("b.ts", 9); ("c.ts", 5)])
               0%nat ("b.ts", 9) ("a.ts", 5)); reflexivity.
Defined.

(** C6: a record whose file sits directly under the scan root has the
    parent-directory key ["."], and the loop adds its line count to the
    total under that key. *)
Theorem C6_top_level_parent_is_dot :
  forall (e : entry) (name : string) (lines : Z) (before after : list file_record),
    PurePath.root (path e) = EmptyString ->
    PurePath.tail (path e) = [name] ->
    PyStr.contains "/" name = false ->
    dir_name (PurePath.str (path e)) = "." /\
    DefaultDict.get
      (build_dir_totals (before ++ (PurePath.str (path e), lines) :: after)%list) "."
    = Some (default 0 (DefaultDict.get (build_dir_totals (before ++ after)%list) ".")
            + lines).
Proof.
  intros e name lines before after Hroot Htail Hname.
  assert (Hdir : dir_name (PurePath.str (path e)) = ".").
  { apply dir_name_top. unfold PurePath.str. rewrite Hroot, Htail, str_app_nil.
    cbn [PyStr.join]. destruct (String.eqb name EmptyString); [reflexivity | exact Hname]. }
  split; [exact Hdir|].
  rewrite !get_build_dir_totals.
  rewrite (total_for_perm "." _ ((PurePath.str (path e), lines) :: before ++ after)%list)
    by (symmetry; apply Permutation_middle).
  rewrite total_for_cons. unfold in_dir. cbn [fst snd]. rewrite Hdir. cbn [String.eqb].
  rewrite Ascii.eqb_refl. f_equal. lia.
Qed.

Lemma C6_top_level_parent_is_dot_witness :
  dir_name (PurePath.str (path a_ts)) = "." /\
  DefaultDict.get (build_dir_totals ([("b.js", 5)] ++ (PurePath.str (path a_ts), 10) :: [])%list) "."
  = Some (default 0 (DefaultDict.get (build_dir_totals ([("b.js", 5)] ++ [])%list) ".") + 10).
Proof.
  apply (C6_top_level_parent_is_dot a_ts "a.ts" 10 [("b.js", 5)] []); reflexivity.
Defined.

(** C7: the mapping from directory to total does not depend on the order of
    the records: a permutation of the list builds a dictionary with the same
    total under each key, and each key is held once. *)
Theorem C7_dir_totals_order_insensitive :
  forall (l1 l2 : list file_record),
    l1 ≡ₚ l2 ->
    to_map (build_dir_totals l1) = to_map (build_dir_totals l2) /\
    NoDup (DefaultDict.keys (build_dir_totals l1)) /\
    NoDup (DefaultDict.keys (build_dir_totals l2)).
Proof.
  intros l1 l2 Hperm. split; [|split; apply NoDup_keys_build].
  apply map_eq. intros k.
  rewrite !DictFacts.to_map_lookup, !get_build_dir_totals.
  now apply total_for_perm.
Qed.

Lemma C7_dir_totals_order_insensitive_witness :
  to_map (build_dir_totals [("src/a.ts", 3); ("lib/b.ts", 4); ("src/c.ts", 5)])
  = to_map (build_dir_totals [("lib/b.ts", 4); ("src/a.ts", 3); ("src/c.ts", 5)]) /\
  NoDup (DefaultDict.keys
           (build_dir_totals [("src/a.ts", 3); ("lib/b.ts", 4); ("src/c.ts", 5)])) /\
  NoDup (DefaultDict.keys
           (build_dir_totals [("lib/b.ts", 4); ("src/a.ts", 3); ("src/c.ts", 5)])).
Proof.
  apply (C7_dir_totals_order_insensitive
           [("src/a.ts", 3); ("lib/b.ts", 4); ("src/c.ts", 5)]
           [("lib/b.ts", 4); ("src/a.ts", 3); ("src/c.ts", 5)]).
  apply perm_swap.
Defined.

Lemma print_all_accepted (out : stdout) (args done : list string) :
  (forall before s, s ∈ args -> out before s = None) ->
  print_all out args done = {| printed := (done ++ args)%list; outcome := Ok tt |}.
Proof.
  revert done. induction args as [|s args IH]; intros done Hout; cbn [print_all].
  - now rewrite app_nil_r.
  - rewrite (Hout done s) by left. rewrite IH.
    + now rewrite <- app_assoc.
    + intros before s' Hs'. apply Hout. now right.
Qed.

Lemma filter_selected_none (walk : list entry) :
  (forall e, e ∈ walk -> ~ qualifying e) -> List.filter selected walk = [].
Proof.
  induction walk as [|e walk IH]; intros Hnone; [reflexivity|].
  cbn [List.filter]. destruct (selected e) eqn:Hsel.
  - exfalso. apply (Hnone e); [left | now apply selected_qualifying].
  - apply IH. intros e' He'. apply Hnone. now right.
Qed.

(** C8, as the code has it: when the walk ends without raising, [is_file()]
    answers for every entry, no entry qualifies and the standard output
    takes the seven texts that are always printed, [main] raises nothing; it
    prints the two headers with no row under either and a grand total of 0. *)
Theorem C8_nothing_qualifies :
  forall (out : stdout) (w : walk),
    ending w = None ->
    Forall answers (yielded w) ->
    (forall e, e ∈ yielded w -> ~ qualifying e) ->
    (forall before s,
        s ∈ [banner; "文件行数统计（降序）"; banner;
             spaced_banner; "目录汇总（降序）"; banner;
             (nl ++ "总计: 0 行")%string] ->
        out before s = None) ->
    main out w =
    {| printed := [banner; "文件行数统计（降序）"; banner;
                   spaced_banner; "目录汇总（降序）"; banner;
                   (nl ++ "总计: 0 行")%string];
       outcome := Ok tt |}.
Proof.
  intros out w Hend Hans Hnone Hout. unfold main, scan_walk.
  rewrite (scan_answers _ Hans), (filter_selected_none _ Hnone), Hend. cbn [map bind].
  now rewrite print_all_accepted.
Qed.

Lemma C8_nothing_qualifies_witness :
  main accepting (exhausted [readme_md]) =
  {| printed := [banner; "文件行数统计（降序）"; banner;
                 spaced_banner; "目录汇总（降序）"; banner;
                 (nl ++ "总计: 0 行")%string];
     outcome := Ok tt |}.
Proof.
  apply (C8_nothing_qualifies accepting (exhausted [readme_md])).
  - reflexivity.
  - repeat constructor. now exists true.
  - intros e He Hq. apply list_elem_of_singleton in He. subst e.
    apply selected_qualifying in Hq. discriminate Hq.
  - reflexivity.
Defined.

(** C8 as stated fails: with no qualifying file in the tree, [main] still
    raises when [is_file()] raises on an entry, when the walk itself raises,
    or when the standard output refuses a title. *)
Lemma C8_raises_with_nothing_qualifying :
  (forall e, e ∈ [readme_md; locked_ts] -> ~ qualifying e) /\
  main accepting (exhausted [readme_md; locked_ts])
  = {| printed := []; outcome := Raise PermissionError |} /\
  main accepting {| yielded := [readme_md]; ending := Some RecursionError |}
  = {| printed := []; outcome := Raise RecursionError |} /\
  main (fun _ s => if String.eqb s banner then None else Some UnicodeEncodeError)
       (exhausted [readme_md])
  = {| printed := [banner]; outcome := Raise UnicodeEncodeError |}.
Proof.
  split; [|repeat split].
  intros e He Hq. apply selected_qualifying in Hq.
  apply elem_of_cons in He as [-> | He]; [discriminate Hq|].
  apply list_elem_of_singleton in He. subst e. discriminate Hq.
Qed.

(** C9: the extension the filter looks at is only the final dot-suffix of
    the file name. [app.test.ts] passes the extension test and [app.ts.bak]
    does not; a name without a period, or whose only period is its first
    character, never passes; and a name [stem.ext] whose [ext] holds no
    period has the extension [.ext] when neither part is empty. *)
Theorem C9_extension_is_final_dot_suffix :
  forall (root : string) (dirs : list string),
    str_in (PurePath.suffix (PurePath.mk root (dirs ++ ["app.test.ts"])%list)) EXTENSIONS
    = true /\
    str_in (PurePath.suffix (PurePath.mk root (dirs ++ ["app.ts.bak"])%list)) EXTENSIONS
    = false /\
    (forall name : string,
        PyStr.contains "." name = false ->
        str_in (PurePath.suffix (PurePath.mk root (dirs ++ [name])%list)) EXTENSIONS
        = false) /\
    (forall rest : string,
        PyStr.contains "." rest = false ->
        str_in (PurePath.suffix (PurePath.mk root (dirs ++ [String "." rest])%list))
               EXTENSIONS
        = false) /\
    (forall stem ext : string,
        PyStr.contains "." ext = false ->
        stem <> EmptyString -> ext <> EmptyString ->
        PurePath.suffix (PurePath.mk root (dirs ++ [(stem ++ String "." ext)%string])%list)
        = String "." ext).
Proof.
  intros root dirs. split; [|split; [|split; [|split]]].
  - change "app.test.ts" with ("app.test" ++ String "." "ts")%string.
    now rewrite suffix_final_dot.
  - change "app.ts.bak" with ("app.ts" ++ String "." "bak")%string.
    now rewrite suffix_final_dot.
  - intros name Hname. rewrite suffix_none; [reflexivity|].
    unfold PurePath.name. cbn [PurePath.tail].
    rewrite last_snoc, rfind_absent by assumption. lia.
  - intros rest Hrest.
    pose proof (suffix_final_dot root dirs EmptyString rest Hrest) as H.
    rewrite str_app_nil in H. rewrite H. reflexivity.
  - intros stem ext Hext Hstem Hne. rewrite suffix_final_dot by assumption.
    destruct stem; [congruence|]. destruct ext; [congruence | reflexivity].
Qed.

Lemma C9_extension_is_final_dot_suffix_witness :
  str_in (PurePath.suffix (PurePath.mk "" (["src"] ++ ["Makefile"])%list)) EXTENSIONS = false /\
  str_in (PurePath.suffix (PurePath.mk "" (["src"] ++ [String "." "ts"])%list)) EXTENSIONS
  = false /\
  PurePath.suffix (PurePath.mk "" (["src"] ++ [("vite.config" ++ String "." "js")%string])%list)
  = String "." "js".
Proof.
  destruct (C9_extension_is_final_dot_suffix "" ["src"]) as (_ & _ & Hnone & Hlead & Hfinal).
  split; [|split].
  - apply (Hnone "Makefile"). reflexivity.
  - apply (Hlead "ts"). reflexivity.
  - apply (Hfinal "vite.config" "js"); [reflexivity | discriminate | discriminate].
Defined.

Lemma elem_of_keys_fold (fs : list file_record) (d : DefaultDict.t) (k : string) :
  k ∈ DefaultDict.keys (fold_left add_record fs d) ->
  k ∈ DefaultDict.keys d \/ exists r, r ∈ fs /\ dir_name (fst r) = k.
Proof.
  revert d. induction fs as [|[p n] fs IH]; intros d Hk; cbn [fold_left] in Hk.
  - now left.
  - apply IH in Hk as [Hk | (r & Hr & Hdir)].
    + cbn [add_record] in Hk. rewrite DictFacts.keys_iadd in Hk.
      destruct (DefaultDict.get d (dir_name p)); [now left|].
      apply elem_of_app in Hk as [Hk | Hk]; [now left|].
      apply list_elem_of_singleton in Hk. subst k.
      right. exists (p, n). split; [left | reflexivity].
    + right. exists r. split; [now right | assumption].
Qed.

(** C10: every key of [dir_totals], and so every directory row that is
    printed, is the parent directory of at least one record of the report;
    the directory rows are the keys, reordered. *)
Theorem C10_every_directory_row_has_a_file :
  forall (scanned : list file_record),
    (forall k : string,
        k ∈ DefaultDict.keys (dir_totals (make_report scanned)) ->
        exists r, r ∈ files (make_report scanned) /\ dir_name (fst r) = k) /\
    map fst (sort_dirs (dir_totals (make_report scanned)))
    ≡ₚ DefaultDict.keys (dir_totals (make_report scanned)).
Proof.
  intros scanned. split.
  - intros k Hk. cbn [files dir_totals make_report] in *.
    rewrite build_dir_totals_fold in Hk.
    apply elem_of_keys_fold in Hk as [Hk | Hr]; [|exact Hr].
    now apply elem_of_nil in Hk.
  - unfold sort_dirs, DefaultDict.keys, DefaultDict.items.
    apply Permutation_map, sort_by_key_perm.
Qed.

Lemma C10_every_directory_row_has_a_file_witness :
  exists r, r ∈ files (make_report [("src/a.ts", 3); ("b.ts", 4)]) /\ dir_name (fst r) = "src".
Proof.
  apply (proj1 (C10_every_directory_row_has_a_file [("src/a.ts", 3); ("b.ts", 4)]) "src").
  vm_compute. right. left.
Defined.

(** * Further properties of the code *)

(** ** Paths printed and parsed again *)

Lemma str_sep_cons (s : string) : ("/" ++ s)%string = String "/" s.
Proof. reflexivity. Qed.

Lemma split_app_sep (sep : ascii) (x s : string) :
  PyStr.contains sep x = false ->
  PyStr.split sep (x ++ String sep s) = x :: PyStr.split sep s.
Proof.
  induction x as [|a x IH]; intros H.
  - rewrite str_app_nil. simpl. now rewrite Ascii.eqb_refl.
  - simpl in H. apply orb_false_elim in H as [Ha Hx].
    rewrite str_app_cons. cbn [PyStr.split]. rewrite Ha, (IH Hx). reflexivity.
Qed.

Lemma valid_component_spec (c : string) :
  valid_component c = true ->
  c <> EmptyString /\ PurePath.keeps c = true /\ PyStr.contains "/" c = false.
Proof.
  unfold valid_component. intros H. apply andb_true_iff in H as [Hk Hc].
  apply negb_true_iff in Hc. repeat split; try assumption.
  intros ->. discriminate Hk.
Qed.

Lemma split_join (l : list string) :
  l <> [] -> Forall (fun c => valid_component c = true) l ->
  PyStr.split "/" (PyStr.join "/" l) = l.
Proof.
  intros Hne Hl. induction Hl as [|x l Hx Hl IH]; [congruence|].
  apply valid_component_spec in Hx as (_ & _ & Hx).
  destruct l as [|y l].
  - cbn [PyStr.join]. now apply split_absent.
  - change (PyStr.join "/" (x :: y :: l)) with (x ++ "/" ++ PyStr.join "/" (y :: l))%string.
    rewrite str_sep_cons, split_app_sep by assumption.
    f_equal. now apply IH.
Qed.

Lemma filter_keeps_valid (l : list string) :
  Forall (fun c => valid_component c = true) l -> List.filter PurePath.keeps l = l.
Proof.
  induction 1 as [|x l Hx Hl IH]; [reflexivity|].
  apply valid_component_spec in Hx as (_ & Hx & _).
  cbn [List.filter]. now rewrite Hx, IH.
Qed.

Lemma join_head (x : string) (l : list string) :
  valid_component x = true ->
  exists a r, PyStr.join "/" (x :: l) = String a r /\ Ascii.eqb a "/" = false.
Proof.
  intros Hx. apply valid_component_spec in Hx as (Hne & _ & Hc).
  destruct x as [|a x]; [congruence|].
  simpl in Hc. apply orb_false_elim in Hc as [Ha _].
  destruct l as [|y l].
  - exists a, x. now split.
  - exists a, (x ++ "/" ++ PyStr.join "/" (y :: l))%string. now split.
Qed.

Lemma removelast_valid (l : list string) :
  Forall (fun c => valid_component c = true) l ->
  Forall (fun c => valid_component c = true) (List.removelast l).
Proof.
  induction 1 as [|x l Hx Hl IH]; [constructor|].
  destruct l as [|y l]; [constructor|].
  change (List.removelast (x :: y :: l)) with (x :: List.removelast (y :: l)).
  now constructor.
Qed.

Lemma parent_walked (p : PurePath.t) : walked p -> walked (PurePath.parent p).
Proof.
  intros [Hr Ht]. unfold PurePath.parent.
  destruct (PurePath.tail p) as [|x l] eqn:E.
  - split; [assumption | now rewrite E].
  - split; [assumption|]. cbn [PurePath.tail]. now apply removelast_valid.
Qed.

Lemma parse_str_walked (p : PurePath.t) :
  walked p -> PurePath.parse (PurePath.str p) = p.
Proof.
  destruct p as [rt tl]. intros [Hr Ht]. cbn [PurePath.root PurePath.tail] in *. subst rt.
  unfold PurePath.str. cbn [PurePath.root PurePath.tail]. rewrite str_app_nil.
  destruct tl as [|x l]; [reflexivity|].
  destruct (join_head x l) as (a & r & Hj & Ha); [now inversion Ht|].
  assert (Hsplit := split_join (x :: l) ltac:(discriminate) Ht).
  rewrite Hj in *. cbn [String.eqb].
  unfold PurePath.parse, PurePath.splitroot. cbn [PyStr.head_is]. rewrite Ha. cbn [negb].
  rewrite Hsplit, filter_keeps_valid by assumption. reflexivity.
Qed.

(** X1: a path of the walk is recovered from the string the program keeps of
    it: parsing [str(path)] gives [path] back, so nothing of the path is lost
    between the loop that records it and the loop that groups it, and two
    different paths never print alike. *)
Theorem X1_parse_str_round_trip :
  forall (p q : PurePath.t),
    walked p -> walked q ->
    PurePath.parse (PurePath.str p) = p /\
    (PurePath.str p = PurePath.str q -> p = q).
Proof.
  intros p q Hp Hq. split; [now apply parse_str_walked|].
  intros H. rewrite <- (parse_str_walked p Hp), <- (parse_str_walked q Hq). now rewrite H.
Qed.

Lemma X1_parse_str_round_trip_witness :
  PurePath.parse (PurePath.str (PurePath.mk "" ["src"; "lib"; "a.ts"]))
  = PurePath.mk "" ["src"; "lib"; "a.ts"].
Proof.
  apply (proj1 (X1_parse_str_round_trip (PurePath.mk "" ["src"; "lib"; "a.ts"])
                  (PurePath.mk "" ["b.js"])
                  ltac:(split; [reflexivity | repeat constructor])
                  ltac:(split; [reflexivity | repeat constructor]))).
Defined.

(** X2: the directory key of a recorded file is the printed form of its
    parent path, and two files share a key exactly when they have the same
    parent components: files of different directories never add up under one
    key, and files of one directory never under two. *)
Theorem X2_dir_name_is_parent :
  forall (p q : PurePath.t),
    walked p -> walked q ->
    dir_name (PurePath.str p) = PurePath.str (PurePath.parent p) /\
    (dir_name (PurePath.str p) = dir_name (PurePath.str q)
     <-> List.removelast (PurePath.tail p) = List.removelast (PurePath.tail q)).
Proof.
  intros p q Hp Hq.
  assert (Hd : forall r, walked r ->
                 dir_name (PurePath.str r) = PurePath.str (PurePath.parent r)).
  { intros r Hr. unfold dir_name. now rewrite parse_str_walked. }
  assert (Hpar : forall r, walked r ->
                 PurePath.parent r = PurePath.mk EmptyString (List.removelast (PurePath.tail r))).
  { intros [rt tl] [Hr _]. cbn in Hr. subst rt. unfold PurePath.parent. cbn.
    now destruct tl. }
  split; [now apply Hd|].
  rewrite (Hd p Hp), (Hd q Hq). split.
  - intros H.
    assert (Heq : PurePath.parent p = PurePath.parent q).
    { rewrite <- (parse_str_walked _ (parent_walked p Hp)),
              <- (parse_str_walked _ (parent_walked q Hq)). now rewrite H. }
    rewrite (Hpar p Hp), (Hpar q Hq) in Heq. now injection Heq.
  - intros H. now rewrite (Hpar p Hp), (Hpar q Hq), H.
Qed.

Lemma X2_dir_name_is_parent_witness :
  dir_name (PurePath.str (PurePath.mk "" ["src"; "lib"; "a.ts"]))
  = PurePath.str (PurePath.parent (PurePath.mk "" ["src"; "lib"; "a.ts"])).
Proof.
  apply (proj1 (X2_dir_name_is_parent (PurePath.mk "" ["src"; "lib"; "a.ts"])
                  (PurePath.mk "" ["b.js"])
                  ltac:(split; [reflexivity | repeat constructor])
                  ltac:(split; [reflexivity | repeat constructor]))).
Defined.

(** ** What the directory rows hold *)

Lemma get_elem_of (d : DefaultDict.t) (k : string) (v : Z) :
  NoDup (DefaultDict.keys d) -> (k, v) ∈ d -> DefaultDict.get d k = Some v.
Proof.
  unfold DefaultDict.keys. induction d as [|[k0 v0] d IH]; intros Hnd Hin.
  - now apply elem_of_nil in Hin.
  - cbn [map fst] in Hnd. apply NoDup_cons in Hnd as [Hk0 Hnd].
    apply elem_of_cons in Hin as [Heq | Hin]; cbn [DefaultDict.get].
    + injection Heq as -> ->. now rewrite String.eqb_refl.
    + destruct (String.eqb_spec k0 k) as [->|Hne]; [|now apply IH].
      exfalso. apply Hk0. change k with (fst (k, v)). now apply list_elem_of_fmap_2.
Qed.

Lemma elem_of_sort_dirs (row : string * Z) (d : DefaultDict.t) :
  row ∈ sort_dirs d <-> row ∈ d.
Proof. unfold sort_dirs, DefaultDict.items. now rewrite sort_by_key_perm. Qed.

Lemma total_for_sort_files (k : string) (scanned : list file_record) :
  total_for k (sort_files scanned) = total_for k scanned.
Proof. apply total_for_perm. unfold sort_files. apply sort_by_key_perm. Qed.

Lemma row_total (scanned : list file_record) (row : string * Z) :
  row ∈ sort_dirs (dir_totals (make_report scanned)) ->
  total_for (fst row) scanned = Some (snd row).
Proof.
  intros Hrow. apply (proj1 (elem_of_sort_dirs _ _)) in Hrow.
  cbn [dir_totals make_report] in Hrow.
  destruct row as [k v]. apply get_elem_of in Hrow; [|apply NoDup_keys_build].
  now rewrite get_build_dir_totals, total_for_sort_files in Hrow.
Qed.

(** X3: the total printed for a directory is the sum of the line counts of
    the scanned files whose parent is that directory, of which there is at
    least one. *)
Theorem X3_directory_row_is_sum_of_its_files :
  forall (scanned : list file_record) (row : string * Z),
    row ∈ sort_dirs (dir_totals (make_report scanned)) ->
    List.filter (in_dir (fst row)) scanned <> [] /\
    snd row = foldr Z.add 0 (map snd (List.filter (in_dir (fst row)) scanned)).
Proof.
  intros scanned row Hrow. apply row_total in Hrow. unfold total_for in Hrow.
  destruct (List.filter (in_dir (fst row)) scanned) as [|r rs]; [discriminate|].
  split; [discriminate | now injection Hrow].
Qed.

Lemma X3_directory_row_is_sum_of_its_files_witness :
  List.filter (in_dir "src") [("src/a.ts", 3); ("b.ts", 4); ("src/c.ts", 5)] <> [] /\
  8 = foldr Z.add 0
        (map snd (List.filter (in_dir "src") [("src/a.ts", 3); ("b.ts", 4); ("src/c.ts", 5)])).
Proof.
  apply (X3_directory_row_is_sum_of_its_files
           [("src/a.ts", 3); ("b.ts", 4); ("src/c.ts", 5)] ("src", 8)).
  vm_compute. left.
Defined.

Lemma sum_filter_bounds (f : file_record -> bool) (l : list file_record) :
  Forall (fun r => 0 <= snd r) l ->
  0 <= foldr Z.add 0 (map snd (List.filter f l)) <= foldr Z.add 0 (map snd l).
Proof.
  induction 1 as [|r l Hr Hl IH]; cbn [List.filter map foldr]; [lia|].
  destruct (f r); cbn [map foldr]; lia.
Qed.

(** X4: in the report of a scan, every directory total is at least 0 and at
    most the grand total. *)
Theorem X4_directory_total_bounds :
  forall (walk : list entry) (scanned : list file_record) (row : string * Z),
    scan walk = Ok scanned ->
    row ∈ sort_dirs (dir_totals (make_report scanned)) ->
    0 <= snd row <= grand_total (files (make_report scanned)).
Proof.
  intros walk scanned row Hscan Hrow. apply row_total in Hrow.
  apply scan_Ok in Hscan as [-> _].
  unfold total_for in Hrow.
  destruct (List.filter _ _) as [|r rs] eqn:E; [discriminate|]. injection Hrow as <-.
  change (0 <= foldr Z.add 0 (map snd (r :: rs))
          <= grand_total (files (make_report (map record_of (List.filter selected walk))))).
  rewrite <- E. cbn [files make_report]. unfold grand_total, sort_files.
  rewrite py_sum_foldr.
  rewrite (foldr_add_perm _ _ (Permutation_map snd (sort_by_key_perm _ _))).
  apply sum_filter_bounds, Forall_fmap, Forall_forall. intros e _. apply counted_nonneg.
Qed.

Lemma X4_directory_total_bounds_witness :
  0 <= 15 <= grand_total (files (make_report [("b.js", 5); ("a.ts", 10)])).
Proof.
  apply (X4_directory_total_bounds scenario [("b.js", 5); ("a.ts", 10)] (".", 15)).
  - vm_compute. reflexivity.
  - vm_compute. left.
Defined.

(** ** The scan along the walk *)

(** X5: scanning a walk in two parts and appending the results is scanning
    the whole walk: the records come in the order of the walk, and what one
    entry does has no effect on the others. *)
Theorem X5_scan_app :
  forall (w1 w2 : list entry),
    scan (w1 ++ w2) =
    let* a := scan w1 in let* b := scan w2 in Ok (a ++ b)%list.
Proof.
  exact scan_app.
Qed.

(** ** More on the two sorts *)

Section MoreSortFacts.
Context {A : Type} (key : A -> Z).

Lemma sort_by_key_ascending_id (l : list A) :
  ascending key l -> sort_by_key key l = l.
Proof.
  unfold ascending. induction 1 as [|x l Hl IH Hx]; [reflexivity|].
  cbn [sort_by_key]. rewrite IH.
  destruct l as [|y l]; [reflexivity|]. cbn [insert_by_key].
  apply List.Forall_inv in Hx.
  destruct (Z.leb_spec (key x) (key y)); [reflexivity | lia].
Qed.

Lemma neighbours_ascending (l : list A) :
  (forall i a b, l !! i = Some a -> l !! S i = Some b -> key a <= key b) ->
  ascending key l.
Proof.
  unfold ascending. induction l as [|x l IH]; intros H; [constructor|].
  assert (Hl : StronglySorted (fun a b => key a <= key b) l).
  { apply IH. intros i a b Ha Hb. apply (H (S i) a b); assumption. }
  constructor; [exact Hl|].
  destruct l as [|y l]; [constructor|].
  assert (Hxy : key x <= key y) by (apply (H 0%nat x y); reflexivity).
  constructor; [exact Hxy|].
  apply StronglySorted_inv in Hl as [_ Hy].
  eapply List.Forall_impl; [|exact Hy]. simpl. intros b Hb. lia.
Qed.

End MoreSortFacts.

(** X6: sorting neither drops nor repeats a row: the file rows are the
    scanned records rearranged, and the directory rows are the items of
    [dir_totals] rearranged. *)
Theorem X6_sorts_rearrange :
  forall (scanned : list file_record),
    files (make_report scanned) ≡ₚ scanned /\
    sort_dirs (dir_totals (make_report scanned))
    ≡ₚ DefaultDict.items (dir_totals (make_report scanned)).
Proof.
  intros scanned. split.
  - cbn [files make_report]. unfold sort_files. apply sort_by_key_perm.
  - unfold sort_dirs. apply sort_by_key_perm.
Qed.

(** X7: records that already come with descending counts are left in their
    order by the sort, and sorting what was sorted changes nothing. *)
Theorem X7_sort_files_fixes_descending :
  (forall (scanned : list file_record),
      (forall (i : nat) (a b : file_record),
          scanned !! i = Some a -> scanned !! S i = Some b -> snd a >= snd b) ->
      sort_files scanned = scanned) /\
  (forall (scanned : list file_record),
      sort_files (sort_files scanned) = sort_files scanned).
Proof.
  split.
  - intros scanned Hdesc.
    unfold sort_files. apply sort_by_key_ascending_id, neighbours_ascending.
    intros i a b Ha Hb. pose proof (Hdesc i a b Ha Hb). simpl. lia.
  - intros scanned. unfold sort_files.
    apply sort_by_key_ascending_id, sort_by_key_ascending.
Qed.

Lemma X7_sort_files_fixes_descending_witness :
  sort_files [("a.ts", 9); ("b.ts", 5); ("c.ts", 5)] = [("a.ts", 9); ("b.ts", 5); ("c.ts", 5)].
Proof.
  apply (proj1 X7_sort_files_fixes_descending [("a.ts", 9); ("b.ts", 5); ("c.ts", 5)]).
  intros [|[|[|i]]] a b Ha Hb; simpl in *; try discriminate;
    injection Ha as <-; injection Hb as <-; simpl; lia.
Defined.

(** X8: directories with equal totals are printed in the order in which
    [dir_totals] holds them, that is the order in which the loop first met
    them. *)
Theorem X8_directory_rows_stable :
  forall (d : DefaultDict.t) (c : Z),
    List.filter (fun r => snd r =? c) (sort_dirs d)
    = List.filter (fun r => snd r =? c) (DefaultDict.items d).
Proof.
  intros d c. unfold sort_dirs.
  assert (Hext : forall r : string * Z, (snd r =? c) = (- snd r =? - c)).
  { intros r. destruct (Z.eqb_spec (snd r) c), (Z.eqb_spec (- snd r) (- c));
      try reflexivity; lia. }
  rewrite !(List.filter_ext _ _ Hext).
  apply (sort_by_key_stable (fun x : string * Z => - snd x) (- c)).
Qed.

(** ** The keys of [dir_totals] *)

Lemma get_None_str_in (d : DefaultDict.t) (k : string) :
  DefaultDict.get d k = None <-> str_in k (DefaultDict.keys d) = false.
Proof.
  rewrite <- not_true_iff_false, str_in_elem, DictFacts.get_Some_keys.
  destruct (DefaultDict.get d k) as [v|]; split; intros H.
  - discriminate.
  - exfalso. apply H. discriminate.
  - intros H'. now apply H'.
  - reflexivity.
Qed.

Lemma keys_add_record (d : DefaultDict.t) (r : file_record) :
  DefaultDict.keys (add_record d r) =
  if str_in (dir_name (fst r)) (DefaultDict.keys d) then DefaultDict.keys d
  else (DefaultDict.keys d ++ [dir_name (fst r)])%list.
Proof.
  destruct r as [p n]. cbn [add_record fst]. rewrite DictFacts.keys_iadd.
  destruct (DefaultDict.get d (dir_name p)) eqn:Hg.
  - destruct (str_in (dir_name p) (DefaultDict.keys d)) eqn:Hs; [reflexivity|].
    apply get_None_str_in in Hs. congruence.
  - apply get_None_str_in in Hg. now rewrite Hg.
Qed.

Lemma keys_fold_add_record (fs : list file_record) (d : DefaultDict.t) :
  DefaultDict.keys (fold_left add_record fs d) =
  fold_left (fun seen k => if str_in k seen then seen else (seen ++ [k])%list)
            (map (fun r => dir_name (fst r)) fs) (DefaultDict.keys d).
Proof.
  revert d. induction fs as [|r fs IH]; intros d; [reflexivity|].
  cbn [fold_left map]. now rewrite IH, keys_add_record.
Qed.

(** X9: [dir_totals] holds the directories in the order in which they first
    appear among the sorted files, each once: a directory comes before
    another when its largest file comes before the other's in the file rows. *)
Theorem X9_directory_keys_first_seen :
  forall (scanned : list file_record),
    DefaultDict.keys (dir_totals (make_report scanned))
    = first_seen (map (fun r => dir_name (fst r)) (files (make_report scanned))).
Proof.
  intros scanned. cbn [files dir_totals make_report].
  rewrite build_dir_totals_fold. apply keys_fold_add_record.
Qed.

Lemma length_keys_fold (fs : list file_record) (d : DefaultDict.t) :
  (length (DefaultDict.keys (fold_left add_record fs d))
   <= length (DefaultDict.keys d) + length fs)%nat.
Proof.
  revert d. induction fs as [|r fs IH]; intros d; cbn [fold_left length]; [lia|].
  specialize (IH (add_record d r)). rewrite keys_add_record in IH.
  destruct (str_in _ _); [|rewrite length_app in IH; cbn [length] in IH]; lia.
Qed.

(** X10: the report never has more directory rows than file rows, and it has
    no directory row exactly when it has no file row. *)
Theorem X10_report_shape :
  forall (scanned : list file_record),
    (length (sort_dirs (dir_totals (make_report scanned)))
     <= length (files (make_report scanned)))%nat /\
    (sort_dirs (dir_totals (make_report scanned)) = [] <-> scanned = []).
Proof.
  intros scanned.
  assert (Hrows : length (sort_dirs (dir_totals (make_report scanned)))
                  = length (DefaultDict.keys (dir_totals (make_report scanned)))).
  { unfold sort_dirs, DefaultDict.keys, DefaultDict.items.
    now rewrite sort_by_key_perm, length_map. }
  split.
  - rewrite Hrows. cbn [files dir_totals make_report]. rewrite build_dir_totals_fold.
    apply (length_keys_fold _ DefaultDict.empty).
  - split.
    + intros Hnil. destruct scanned as [|r scanned]; [reflexivity|]. exfalso.
      assert (Hsome : total_for (dir_name (fst r)) (r :: scanned) <> None).
      { rewrite total_for_cons. unfold in_dir. now rewrite String.eqb_refl. }
      rewrite <- total_for_sort_files, <- get_build_dir_totals in Hsome.
      apply DictFacts.get_Some_keys in Hsome.
      apply (f_equal (@length _)) in Hnil. rewrite Hrows in Hnil.
      cbn [dir_totals make_report] in Hnil.
      destruct (DefaultDict.keys (build_dir_totals (sort_files (r :: scanned))));
        [now apply elem_of_nil in Hsome | discriminate].
    + intros ->. reflexivity.
Qed.

(** ** More on counting lines *)

(** X11: a file that opens and reads to its end counts 0 exactly when it is
    empty; any text at all, terminated or not, counts at least one line. *)
Theorem X11_zero_iff_empty :
  forall (f : file_node) (text : string),
    read_text f = Ok text ->
    (count_lines f = Ok 0 <-> text = EmptyString) /\
    (text <> EmptyString -> exists n, count_lines f = Ok n /\ 1 <= n).
Proof.
  intros f text Hread. rewrite count_lines_cases, Hread.
  destruct (iter_lines text) as [|l ls] eqn:Hit.
  - apply iter_lines_nil in Hit. subst text. split; [now split | congruence].
  - split.
    + split; [intros H; injection H as H; cbn [length] in H; lia|].
      intros ->. discriminate Hit.
    + intros _. eexists. split; [reflexivity | cbn [length]; lia].
Qed.

Lemma X11_zero_iff_empty_witness :
  count_lines (Opened [Ok EmptyString; Ok EmptyString]) = Ok 0.
Proof.
  apply (proj2 (proj1 (X11_zero_iff_empty (Opened [Ok EmptyString; Ok EmptyString])
                         EmptyString eq_refl)) eq_refl).
Defined.

Lemma plain_String (c : ascii) (s : string) :
  plain (String c s) = true ->
  Ascii.eqb c LF = false /\ Ascii.eqb c CR = false /\ plain s = true.
Proof.
  unfold plain. cbn [PyStr.contains]. intros H. apply negb_true_iff in H.
  apply orb_false_elim in H as [H1 H2].
  apply orb_false_elim in H1 as [Hlf H1]. apply orb_false_elim in H2 as [Hcr H2].
  repeat split; try assumption. now rewrite H1, H2.
Qed.

(** A line body in front of a text joins the first line of that text. *)
Lemma iter_lines_plain_app (body rest l : string) (ls : list string) :
  plain body = true -> iter_lines rest = l :: ls ->
  iter_lines (body ++ rest) = (body ++ l)%string :: ls.
Proof.
  intros Hbody Hrest. induction body as [|c body IH].
  - now rewrite !str_app_nil.
  - apply plain_String in Hbody as (Hlf & Hcr & Hbody).
    rewrite !str_app_cons. cbn [iter_lines]. rewrite Hlf, Hcr, (IH Hbody). reflexivity.
Qed.

Lemma text_of_head (ls : list string) :
  Forall (fun l => plain l = true) ls -> PyStr.head_is LF (text_of OldMac ls) = false.
Proof.
  intros [|l r Hl _]; [reflexivity|]. cbn [text_of].
  destruct l as [|c l]; [reflexivity|].
  apply plain_String in Hl as (Hlf & _). rewrite str_app_cons. exact Hlf.
Qed.

Lemma iter_lines_ending (t : line_ending) (rest : string) :
  (t = OldMac -> PyStr.head_is LF rest = false) ->
  iter_lines (ending_text t ++ rest) = nl :: iter_lines rest.
Proof.
  intros Hmac. destruct t; try reflexivity.
  specialize (Hmac eq_refl). unfold ending_text. rewrite str_app_cons, str_app_nil.
  cbn [iter_lines]. change (Ascii.eqb CR LF) with false. change (Ascii.eqb CR CR) with true.
  cbv iota. destruct rest as [|c r]; [reflexivity|]. cbn [PyStr.head_is] in Hmac.
  now rewrite Hmac.
Qed.

Lemma iter_lines_text_of (t : line_ending) (ls : list string) :
  Forall (fun l => plain l = true) ls ->
  iter_lines (text_of t ls) = map (fun l => l ++ nl)%string ls.
Proof.
  induction 1 as [|l r Hl Hr IH]; [reflexivity|].
  cbn [text_of map]. rewrite <- IH.
  apply iter_lines_plain_app; [assumption|].
  apply iter_lines_ending. intros ->. now apply text_of_head.
Qed.

(** X12: a file of [n] lines counts [n] whichever convention ends its lines,
    ["\n"], ["\r\n"] or ["\r"], and the iteration hands every line over with
    its terminator read as ["\n"]. *)
Theorem X12_line_endings_count_alike :
  forall (t : line_ending) (ls : list string),
    Forall (fun l => plain l = true) ls ->
    iter_lines (text_of t ls) = map (fun l => l ++ nl)%string ls /\
    count_lines (Opened [Ok (text_of t ls)]) = Ok (Z.of_nat (length ls)).
Proof.
  intros t ls Hls. split; [now apply iter_lines_text_of|].
  rewrite count_lines_cases. unfold read_text. cbn [open_ read_all bind].
  replace (text_of t ls ++ EmptyString)%string with (text_of t ls).
  - now rewrite iter_lines_text_of, length_map.
  - generalize (text_of t ls). intros s. induction s as [|c s IH]; [reflexivity|].
    rewrite str_app_cons. now f_equal.
Qed.

Lemma X12_line_endings_count_alike_witness :
  count_lines (Opened [Ok (text_of Windows ["fn main() {"; ""; "}"])]) = Ok 3.
Proof.
  apply (proj2 (X12_line_endings_count_alike Windows ["fn main() {"; ""; "}"]
                  ltac:(repeat constructor))).
Defined.

(** ** More on the filter *)

Lemma drop_split (n : nat) (s : string) :
  (n <= String.length s)%nat ->
  exists stem, s = (stem ++ PyStr.drop n s)%string /\ String.length stem = n.
Proof.
  revert s. induction n as [|n IH]; intros s Hn.
  - exists EmptyString. now split.
  - destruct s as [|c s]; [simpl in Hn; lia|].
    destruct (IH s) as (stem & Hs & Hlen); [simpl in Hn; lia|].
    exists (String c stem). cbn [PyStr.drop]. rewrite str_app_cons.
    split; [now f_equal | simpl; now f_equal].
Qed.

(** A suffix, when there is one, is what is left of the name after a stem
    that is not empty. *)
Lemma suffix_stem (p : PurePath.t) :
  PurePath.suffix p <> EmptyString ->
  exists stem, stem <> EmptyString /\
               PurePath.name p = (stem ++ PurePath.suffix p)%string.
Proof.
  unfold PurePath.suffix.
  destruct (Z.ltb_spec 0 (PyStr.rfind "." (PurePath.name p))) as [Hpos|]; [|now intros []].
  destruct (Z.ltb_spec (PyStr.rfind "." (PurePath.name p)) (PyStr.len (PurePath.name p) - 1))
    as [Hlt|]; [|now intros []].
  cbn [andb]. intros _.
  destruct (drop_split (Z.to_nat (PyStr.rfind "." (PurePath.name p))) (PurePath.name p))
    as (stem & Hs & Hlen); [unfold PyStr.len in Hlt; lia|].
  exists stem. split; [|exact Hs].
  intros ->. simpl in Hlen. lia.
Qed.

(** X13: the name of every file that is recorded is a stem that is not
    empty followed by one of the extensions of [EXTENSIONS]. *)
Theorem X13_recorded_name_ends_in_extension :
  forall (e : entry) (fs : list file_record) (lines : Z),
    visit fs e = Ok (fs ++ [(PurePath.str (path e), lines)])%list ->
    exists stem ext,
      stem <> EmptyString /\ ext ∈ EXTENSIONS /\
      PurePath.name (path e) = (stem ++ ext)%string.
Proof.
  intros e fs lines Hvisit. rewrite visit_cases in Hvisit.
  destruct (is_file e) as [regular|x]; [|discriminate]. cbn [bind] in Hvisit.
  destruct (selected e) eqn:Hsel.
  - apply selected_qualifying in Hsel as (_ & Hext & _).
    destruct (suffix_stem (path e)) as (stem & Hstem & Hname).
    + intros Hnil. rewrite Hnil in Hext. vm_compute in Hext.
      repeat (apply elem_of_cons in Hext as [Hext | Hext]; [discriminate|]).
      now apply elem_of_nil in Hext.
    + exists stem, (PurePath.suffix (path e)). now repeat split.
  - injection Hvisit as Hvisit. symmetry in Hvisit. now apply snoc_neq in Hvisit.
Qed.

Lemma X13_recorded_name_ends_in_extension_witness :
  exists stem ext,
    stem <> EmptyString /\ ext ∈ EXTENSIONS /\
    PurePath.name (path a_ts) = (stem ++ ext)%string.
Proof.
  apply (X13_recorded_name_ends_in_extension a_ts [] 10). reflexivity.
Defined.

Lemma ignored_name_no_extension (p : PurePath.t) :
  PurePath.name p ∈ IGNORE_DIRS ->
  str_in (PurePath.suffix p) EXTENSIONS = false.
Proof.
  unfold PurePath.suffix. intros H.
  repeat (apply elem_of_cons in H as [-> | H]; [reflexivity|]).
  now apply elem_of_nil in H.
Qed.

Lemma tail_snoc_name (p : PurePath.t) :
  PurePath.tail p <> [] ->
  PurePath.tail p = (List.removelast (PurePath.tail p) ++ [PurePath.name p])%list.
Proof. intros H. unfold PurePath.name. now apply app_removelast_last. Qed.

(** X14: the exclusion never falls on the file's own name. The test runs
    over every component, the name included, but no name that passes the
    extension test is in [IGNORE_DIRS]; so a regular file with an allowed
    extension is recorded exactly when none of the directories above it is
    excluded. *)
Theorem X14_exclusion_is_by_directory :
  forall (e : entry),
    PurePath.root (path e) = EmptyString ->
    is_file e = Ok true ->
    PurePath.suffix (path e) ∈ EXTENSIONS ->
    (qualifying e <->
     forall c, c ∈ List.removelast (PurePath.tail (path e)) -> c ∉ IGNORE_DIRS).
Proof.
  intros e Hroot Hfile Hext.
  assert (Hparts : PurePath.parts (path e) = PurePath.tail (path e)).
  { unfold PurePath.parts. now rewrite Hroot. }
  assert (Hne : PurePath.tail (path e) <> []).
  { intros Hnil. unfold PurePath.suffix, PurePath.name in Hext. rewrite Hnil in Hext.
    vm_compute in Hext.
    repeat (apply elem_of_cons in Hext as [Hext | Hext]; [discriminate|]).
    now apply elem_of_nil in Hext. }
  assert (Hname : PurePath.name (path e) ∉ IGNORE_DIRS).
  { intros Hin. apply ignored_name_no_extension in Hin.
    apply str_in_elem in Hext. congruence. }
  unfold qualifying. rewrite Hparts. split.
  - intros (_ & _ & Hall) c Hc. apply Hall.
    rewrite (tail_snoc_name _ Hne). apply elem_of_app. now left.
  - intros Hdirs. repeat split; try assumption.
    intros c Hc. rewrite (tail_snoc_name _ Hne) in Hc.
    apply elem_of_app in Hc as [Hc | Hc]; [now apply Hdirs|].
    apply list_elem_of_singleton in Hc. now subst c.
Qed.

Lemma X14_exclusion_is_by_directory_witness : qualifying build_ts.
Proof.
  apply (proj2 (X14_exclusion_is_by_directory build_ts eq_refl eq_refl
                  ltac:(apply str_in_elem; reflexivity))).
  intros c Hc. apply list_elem_of_singleton in Hc. subst c.
  intros Hin. apply str_in_elem in Hin. discriminate Hin.
Defined.

(** ** The whole run *)

Lemma scan_skip (w1 w2 : list entry) (e : entry) :
  answers e -> ~ qualifying e -> scan (w1 ++ e :: w2) = scan (w1 ++ w2).
Proof.
  intros [regular He] Hq. rewrite !scan_app, scan_cons, He. cbn [bind].
  destruct (selected e) eqn:Hsel; [now apply selected_qualifying in Hsel|].
  destruct (scan w1) as [a|x]; cbn [bind]; [|reflexivity].
  now destruct (scan w2).
Qed.

(** X15: an entry that [is_file()] answers for and that does not qualify
    leaves no trace: with it or without it in the walk, [main] prints the
    same and ends the same, on any standard output. *)
Theorem X15_unqualified_entries_leave_no_trace :
  forall (out : stdout) (w1 w2 : list entry) (e : entry) (rest : option exn),
    answers e ->
    ~ qualifying e ->
    main out {| yielded := w1 ++ e :: w2; ending := rest |}
    = main out {| yielded := w1 ++ w2; ending := rest |}.
Proof.
  intros out w1 w2 e rest Hans Hq. unfold main, scan_walk. cbn [yielded ending].
  now rewrite scan_skip.
Qed.

Lemma X15_unqualified_entries_leave_no_trace_witness :
  main accepting {| yielded := [a_ts] ++ readme_md :: [build_ts]; ending := None |}
  = main accepting {| yielded := [a_ts] ++ [build_ts]; ending := None |}.
Proof.
  apply (X15_unqualified_entries_leave_no_trace accepting [a_ts] [build_ts] readme_md None).
  - now exists true.
  - intros Hq. apply selected_qualifying in Hq. discriminate Hq.
Defined.

(** X16: the order in which the walk yields the entries, which nothing
    fixes, decides only the order of rows with equal counts: two walks of the
    same entries give the same file rows up to their order, the same total
    under every directory, and the same grand total line. *)
Theorem X16_walk_order :
  forall (walk1 walk2 : list entry) (s1 s2 : list file_record),
    walk1 ≡ₚ walk2 ->
    scan walk1 = Ok s1 -> scan walk2 = Ok s2 ->
    files (make_report s1) ≡ₚ files (make_report s2) /\
    to_map (dir_totals (make_report s1)) = to_map (dir_totals (make_report s2)) /\
    List.last (print_report (make_report s1)) EmptyString
    = List.last (print_report (make_report s2)) EmptyString.
Proof.
  intros walk1 walk2 s1 s2 Hperm H1 H2.
  apply scan_Ok in H1 as [-> _]. apply scan_Ok in H2 as [-> _].
  assert (Hs : map record_of (List.filter selected walk1)
               ≡ₚ map record_of (List.filter selected walk2)).
  { apply Permutation_map, filter_perm, Hperm. }
  set (s1 := map record_of (List.filter selected walk1)) in *.
  set (s2 := map record_of (List.filter selected walk2)) in *.
  assert (Hf : files (make_report s1) ≡ₚ files (make_report s2)).
  { cbn [files make_report]. unfold sort_files. now rewrite !sort_by_key_perm. }
  split; [exact Hf|]. split.
  - apply map_eq. intros k. cbn [dir_totals make_report].
    rewrite !DictFacts.to_map_lookup, !get_build_dir_totals, !total_for_sort_files.
    now apply total_for_perm.
  - unfold print_report. rewrite !app_assoc, !last_snoc. unfold grand_total.
    rewrite !py_sum_foldr. f_equal. apply foldr_add_perm. now apply Permutation_map.
Qed.

Lemma X16_walk_order_witness :
  files (make_report [(PurePath.str (path a_ts), 10); (PurePath.str (path build_ts), 2)])
  ≡ₚ files (make_report [(PurePath.str (path build_ts), 2); (PurePath.str (path a_ts), 10)]).
Proof.
  apply (proj1 (X16_walk_order [a_ts; build_ts] [build_ts; a_ts] _ _
                  (perm_swap _ _ _) eq_refl eq_refl)).
Defined.

(** ** The count field of a row *)

Lemma length_repeat_space (n : nat) : String.length (PyStr.repeat " " n) = n.
Proof. induction n as [|n IH]; [reflexivity|]. cbn [PyStr.repeat]. simpl. now f_equal. Qed.

Lemma str_length_app (s t : string) :
  String.length (s ++ t) = (String.length s + String.length t)%nat.
Proof.
  induction s as [|c s IH]; [reflexivity|]. rewrite str_app_cons. simpl. now f_equal.
Qed.

Lemma lstrip_repeat_space (n : nat) (s : string) :
  lstrip_spaces (PyStr.repeat " " n ++ s) = lstrip_spaces s.
Proof. induction n as [|n IH]; [reflexivity | exact IH]. Qed.

Lemma int_of_string_space (r : string) : NilZero.int_of_string (String " " r) = None.
Proof.
  unfold NilZero.int_of_string, NilZero.uint_of_string. cbn.
  now destruct (NilEmpty.uint_of_string r).
Qed.

Lemma int_of_string_of_int (z : Z) :
  NilZero.int_of_string (PyStr.of_int z) = Some (Z.to_int z).
Proof.
  unfold PyStr.of_int. apply NilZero.isi.
  - destruct z; simpl; try discriminate.
    intros H. injection H as H. now apply DecimalPos.Unsigned.to_uint_nonnil in H.
  - destruct z; simpl; try discriminate.
    intros H. injection H as H. now apply DecimalPos.Unsigned.to_uint_nonnil in H.
Qed.

Lemma lstrip_of_int (z : Z) : lstrip_spaces (PyStr.of_int z) = PyStr.of_int z.
Proof.
  pose proof (int_of_string_of_int z) as H.
  destruct (PyStr.of_int z) as [|c r]; [reflexivity|]. cbn [lstrip_spaces].
  destruct (Ascii.eqb_spec c " ") as [->|]; [|reflexivity].
  rewrite int_of_string_space in H. discriminate.
Qed.

Lemma read_count_field (z : Z) : read_count (PyStr.rjust 6 (PyStr.of_int z)) = Some z.
Proof.
  unfold read_count, PyStr.rjust.
  rewrite lstrip_repeat_space, lstrip_of_int, int_of_string_of_int. cbn [option_map].
  now rewrite DecimalZ.of_to.
Qed.

(** X17: the count field of a row reads back as the count: after its
    leading spaces come the decimal digits of the count, all of them. The
    field is six characters wide, or as wide as the count when that needs
    more, and two different counts never give the same field. *)
Theorem X17_count_field :
  forall (z z' : Z),
    read_count (PyStr.rjust 6 (PyStr.of_int z)) = Some z /\
    String.length (PyStr.rjust 6 (PyStr.of_int z))
    = Nat.max 6 (String.length (PyStr.of_int z)) /\
    (PyStr.rjust 6 (PyStr.of_int z) = PyStr.rjust 6 (PyStr.of_int z') -> z = z').
Proof.
  intros z z'. split; [apply read_count_field|]. split.
  - unfold PyStr.rjust. rewrite str_length_app, length_repeat_space. lia.
  - intros H. pose proof (read_count_field z) as Hz. rewrite H, read_count_field in Hz.
    now injection Hz.
Qed.

Lemma X17_count_field_witness :
  read_count (PyStr.rjust 6 (PyStr.of_int 1234567)) = Some 1234567 /\ 1234567 = 1234567.
Proof.
  split.
  - apply (proj1 (X17_count_field 1234567 1234567)).
  - apply (proj2 (proj2 (X17_count_field 1234567 1234567))). reflexivity.
Defined.
